(** * mailbot: a shallow embedding of the paste-site mail harvester

    The Go program polls three paste sites, pulls the raw documents linked
    from their listing pages, scans each document for tokens shaped like a
    mail address, filters them and appends the survivors to a log file.

    Go strings are byte strings; they are embedded as [string] (one [ascii]
    per byte).  Every effect of the program -- standard output, standard
    error, the log file, the HTTP requests -- is threaded through an
    explicit [World]. *)

From Stdlib Require Import List String Ascii Bool Arith Lia.
Import ListNotations.
Open Scope list_scope.
Open Scope string_scope.

(** ** Bytes that cannot be typed inside a literal *)

Definition dq : ascii := ascii_of_nat 34.
Definition nl : ascii := ascii_of_nat 10.
Definition DQ : string := String dq "".
Definition NL : string := String nl "".

(** ** The part of Go's [strings] package used by the program *)

Module Strings.

(** [strings.HasPrefix(s, p)] *)
Fixpoint HasPrefix (s p : string) {struct p} : bool :=
  match p with
  | "" => true
  | String a p' =>
      match s with
      | "" => false
      | String b s' => Ascii.eqb a b && HasPrefix s' p'
      end
  end.

(** [s[n:]], for [n] within the length of [s] *)
Fixpoint skip (n : nat) (s : string) : string :=
  match n with
  | 0 => s
  | S n' => match s with "" => "" | String _ s' => skip n' s' end
  end.

(** [s[:n]], for [n] within the length of [s] *)
Fixpoint take (n : nat) (s : string) : string :=
  match n with
  | 0 => ""
  | S n' => match s with "" => "" | String c s' => String c (take n' s') end
  end.

(** [strings.Contains(s, substr)]: some suffix of [s] starts with
    [substr]. *)
Fixpoint Contains (s substr : string) : bool :=
  HasPrefix s substr
  || match s with
     | "" => false
     | String _ s' => Contains s' substr
     end.

(** [strings.Cut(s, sep)]: the text before and after the leftmost
    occurrence of [sep]; this is the [Index] step on which [Split] and
    [Replace] iterate. *)
Fixpoint Cut (s sep : string) : option (string * string) :=
  if HasPrefix s sep then Some ("", skip (length sep) s)
  else match s with
       | "" => None
       | String c s' =>
           match Cut s' sep with
           | Some (before, after) => Some (String c before, after)
           | None => None
           end
       end.

(** [strings.Split(s, sep)] for a non-empty [sep] (every call site passes
    a non-empty literal).  Each round removes at least one byte, so
    [length s] rounds are enough. *)
Fixpoint Split_loop (fuel : nat) (s sep : string) : list string :=
  match fuel with
  | 0 => [s]
  | S fuel' =>
      match Cut s sep with
      | None => [s]
      | Some (before, after) => before :: Split_loop fuel' after sep
      end
  end.

Definition Split (s sep : string) : list string :=
  Split_loop (length s) s sep.

(** [strings.Replace(s, old, new, -1)] for a non-empty [old]. *)
Fixpoint Replace_loop (fuel : nat) (s old new : string) : string :=
  match fuel with
  | 0 => s
  | S fuel' =>
      match Cut s old with
      | None => s
      | Some (before, after) =>
          before ++ new ++ Replace_loop fuel' after old new
      end
  end.

Definition Replace (s old new : string) : string :=
  Replace_loop (length s) s old new.

(** [strings.Join(elems, sep)] *)
Definition Join (elems : list string) (sep : string) : string :=
  String.concat sep elems.

End Strings.

(** ** The three shapes of regular expression the program compiles

    Go's [regexp] is leftmost-first; [FindAllString(s, -1)] returns the
    successive non-overlapping matches, resuming after the end of each
    match, and returns nil when there is none.  Nil and the empty slice are
    both the empty list here; the program only tests [== nil] on results
    that are nil exactly when they are empty. *)

Module Regexp.

(** [\w] is ASCII only in Go: [0-9A-Za-z_]. *)
Definition is_word (c : ascii) : bool :=
  let n := nat_of_ascii c in
  (((48 <=? n) && (n <=? 57)) || ((65 <=? n) && (n <=? 90))
   || ((97 <=? n) && (n <=? 122)) || (n =? 95))%nat.

(** [[\w.]] *)
Definition is_word_or_dot (c : ascii) : bool :=
  is_word c || Ascii.eqb c ".".

(** The longest prefix whose bytes satisfy [p], and what follows it: a
    greedy [+] or [*] over a character class. *)
Fixpoint span (p : ascii -> bool) (s : string) : string * string :=
  match s with
  | "" => ("", "")
  | String c s' =>
      if p c then let (run, rest) := span p s' in (String c run, rest)
      else ("", s)
  end.

(** One attempt of [[\w]+@[\w.]+] anchored at the head of [s].  No byte
    of the first class is an at-sign, so the greedy run is the only
    length that can be followed by one. *)
Definition mail_at (s : string) : option (string * string) :=
  let (local, r1) := span is_word s in
  match local, r1 with
  | String _ _, String c r2 =>
      if Ascii.eqb c "@" then
        let (domain, r3) := span is_word_or_dot r2 in
        match domain with
        | String _ _ => Some (local ++ "@" ++ domain, r3)
        | "" => None
        end
      else None
  | _, _ => None
  end.

(** The lazy middle of [P(.*?)S]: the shortest run of bytes other than
    newline that is followed by [S]. *)
Fixpoint lazy_until (suffix s : string) : option (string * string) :=
  if Strings.HasPrefix s suffix
  then Some (suffix, Strings.skip (length suffix) s)
  else match s with
       | "" => None
       | String c s' =>
           if Ascii.eqb c nl then None
           else match lazy_until suffix s' with
                | Some (m, rest) => Some (String c m, rest)
                | None => None
                end
       end.

(** What stands before [(.*?)] in the link patterns: bytes that match
    themselves and, for an unescaped dot, any character but newline. *)
Inductive atom : Type :=
| Byte (c : ascii)
| AnyNotNL.

(** A run of bytes that match themselves. *)
Fixpoint lit (s : string) : list atom :=
  match s with
  | "" => []
  | String c s' => Byte c :: lit s'
  end.

Definition code (c : ascii) : nat := nat_of_ascii c.

Definition within (lo hi : nat) (c : ascii) : bool :=
  ((lo <=? code c) && (code c <=? hi))%nat.

(** For a first byte of a multi-byte UTF-8 sequence: the number of bytes
    of the sequence and the bounds of its second byte, as in the tables of
    Go's [unicode/utf8]. *)
Definition lead (b0 : ascii) : option (nat * (nat * nat)) :=
  if within 194 223 b0 then Some (2, (128, 191))
  else if within 224 224 b0 then Some (3, (160, 191))
  else if within 225 236 b0 then Some (3, (128, 191))
  else if within 237 237 b0 then Some (3, (128, 159))
  else if within 238 239 b0 then Some (3, (128, 191))
  else if within 240 240 b0 then Some (4, (144, 191))
  else if within 241 243 b0 then Some (4, (128, 191))
  else if within 244 244 b0 then Some (4, (128, 143))
  else None.

(** The number of bytes of the character at the head of a non-empty [s],
    as [utf8.DecodeRuneInString] gives it: an ASCII byte is one byte wide,
    and so is a byte that does not start a well-formed sequence. *)
Definition rune_width (s : string) : nat :=
  match s with
  | "" => 0
  | String b0 r =>
      if within 0 127 b0 then 1
      else
        match lead b0, r with
        | Some (2, (lo, hi)), String b1 _ =>
            if within lo hi b1 then 2 else 1
        | Some (3, (lo, hi)), String b1 (String b2 _) =>
            if within lo hi b1 && within 128 191 b2 then 3 else 1
        | Some (4, (lo, hi)), String b1 (String b2 (String b3 _)) =>
            if within lo hi b1 && within 128 191 b2 && within 128 191 b3
            then 4 else 1
        | _, _ => 1
        end
  end.

(** One unescaped dot at the head of [s]: the character there, unless it
    is a newline, and what follows it. *)
Definition any_not_nl (s : string) : option (string * string) :=
  match s with
  | "" => None
  | String c _ =>
      if Ascii.eqb c nl then None
      else Some (Strings.take (rune_width s) s, Strings.skip (rune_width s) s)
  end.

(** The atoms of [P] matched one after the other from the head of [s]:
    the text they matched and what follows it. *)
Fixpoint match_open (P : list atom) (s : string) : option (string * string) :=
  match P with
  | [] => Some ("", s)
  | Byte c :: P' =>
      match s with
      | "" => None
      | String x s' =>
          if Ascii.eqb c x then
            match match_open P' s' with
            | Some (m, rest) => Some (String x m, rest)
            | None => None
            end
          else None
      end
  | AnyNotNL :: P' =>
      match any_not_nl s with
      | None => None
      | Some (d, s') =>
          match match_open P' s' with
          | Some (m, rest) => Some (d ++ m, rest)
          | None => None
          end
      end
  end.

(** One attempt of [P(.*?)S] anchored at the head of [s].  The closing
    text [S] of every pattern of the program starts with an ASCII byte,
    which is never inside a multi-byte character, so the lazy middle can
    be searched byte by byte. *)
Definition link_at (P : list atom) (S s : string) : option (string * string) :=
  match match_open P s with
  | None => None
  | Some (opening, s') =>
      match lazy_until S s' with
      | Some (m, rest) => Some (opening ++ m, rest)
      | None => None
      end
  end.

(** [FindAllString(s, -1)] for an anchored matcher whose matches are
    never empty: try at the head, on success resume after the match,
    otherwise move one byte on.  Every pattern of the program starts with
    an ASCII byte, so a match can only start where a character starts. *)
Fixpoint find_all (at_head : string -> option (string * string))
         (fuel : nat) (s : string) : list string :=
  match fuel with
  | 0 => []
  | S fuel' =>
      match at_head s with
      | Some (m, rest) => m :: find_all at_head fuel' rest
      | None =>
          match s with
          | "" => []
          | String _ s' => find_all at_head fuel' s'
          end
      end
  end.

Definition FindAllString (at_head : string -> option (string * string))
           (s : string) : list string :=
  find_all at_head (S (length s)) s.

End Regexp.

(** ** The world the program acts on *)

(** What one [FetchPage] call can meet on the network. *)
Inductive Response : Type :=
| GetFails (err : string)
    (** [client.Get] returns an error: no connection, no such host, ... *)
| ReadFails (partial err : string)
    (** the request went through and [ioutil.ReadAll] returns the bytes it
        had read together with an error *)
| Served (body : string)
    (** a response of any status whose body was read to the end *).

(** A Go [error] is kept as the text it prints; [None] is the nil error. *)
Definition error : Type := option string.

Record World : Type := mkWorld {
  stdout : string;          (** bytes written to [os.Stdout] *)
  stderr : list string;     (** lines written to [os.Stderr], oldest first *)
  log : string;             (** bytes of the output log file *)
  requests : list string;   (** URLs passed to [client.Get], oldest first *)
}.

(** ** A state monad over the world *)

Definition M (A : Type) : Type := World -> A * World.

Definition ret {A : Type} (a : A) : M A := fun w => (a, w).

Definition bind {A B : Type} (m : M A) (k : A -> M B) : M B :=
  fun w => k (fst (m w)) (snd (m w)).

Declare Scope go_scope.
Delimit Scope go_scope with go.
Notation "x <- m ;; k" := (bind m (fun x => k))
  (at level 61, m at next level, right associativity) : go_scope.
Notation "m ;; k" := (bind m (fun _ => k))
  (at level 61, right associativity) : go_scope.
Open Scope go_scope.

Definition run {A : Type} (m : M A) (w : World) : World := snd (m w).
Definition result {A : Type} (m : M A) (w : World) : A := fst (m w).

(** [fmt.Print]-like output on standard output: the bytes are appended. *)
Definition print (s : string) : M unit :=
  fun w => (tt, mkWorld (stdout w ++ s) (stderr w) (log w) (requests w)).

(** [fmt.Println(a)] and [fmt.Println(a, b)] *)
Definition Println (a : string) : M unit := print (a ++ NL).
Definition Println2 (a b : string) : M unit := print (a ++ " " ++ b ++ NL).

(** [report(err)]: one line on standard error. *)
Definition report (err : string) : M unit :=
  fun w => (tt, mkWorld (stdout w) (stderr w ++ [err]) (log w) (requests w)).

(** ** The crawler *)

Record Flags : Type := mkFlags {
  filename : string;
  printToStdout : bool;
  verbose : bool;
  pastebin : bool;
  debian : bool;
  slexy : bool;
}.

(** The only file the program opens. *)
Inductive File : Type := LogFile.

(** [file] is a [*os.File]: [None] is the nil pointer. *)
Record Crawler : Type := mkCrawler {
  flags : Flags;
  file : option File;
}.

(** The methods of [*os.File] check their receiver first and return
    [os.ErrInvalid] on nil without touching anything. *)
Definition ErrInvalid : string := "invalid argument".

Definition WriteString (f : option File) (s : string) : M error :=
  match f with
  | None => ret (Some ErrInvalid)
  | Some LogFile =>
      fun w => (None, mkWorld (stdout w) (stderr w) (log w ++ s) (requests w))
  end.

Definition Sync (f : option File) : M error :=
  match f with
  | None => ret (Some ErrInvalid)
  | Some LogFile => ret None
  end.

Definition blacklist : list string :=
  [ "formorer@debian.org";
    "user@user" ].

(** [init], after [flag.Parse] has produced [parsed]: [opened] is the error
    of [os.OpenFile], which returns a nil file whenever the error is not
    nil. *)
Definition init (parsed : Flags) (opened : error) : M Crawler :=
  match opened with
  | Some err => report err;; ret (mkCrawler parsed None)
  | None => ret (mkCrawler parsed (Some LogFile))
  end.

(** *** FreshFilter *)

(** The inner loop [for _, black := range blacklist]. *)
Fixpoint scan_blacklist (mail : string) (bl : list string) (blocked : bool)
  : M bool :=
  match bl with
  | [] => ret blocked
  | black :: bl' =>
      if (mail =? black)%string
      then Println2 mail black;; scan_blacklist mail bl' true
      else scan_blacklist mail bl' blocked
  end.

(** The outer loop [for _, mail := range mails]; each [continue] moves to
    the next mail with [fresh] as it is. *)
Fixpoint FreshFilter_loop (mails fresh : list string) : M (list string) :=
  match mails with
  | [] => ret fresh
  | mail :: rest =>
      if Strings.Contains mail ".png" then FreshFilter_loop rest fresh
      else if Strings.Contains mail ".gif" then FreshFilter_loop rest fresh
      else if Strings.Contains mail ".jpg" then FreshFilter_loop rest fresh
      else if Strings.Contains mail "._" then FreshFilter_loop rest fresh
      else if Strings.Contains mail "@." then FreshFilter_loop rest fresh
      else if negb (Strings.Contains mail ".") then FreshFilter_loop rest fresh
      else
        blocked <- scan_blacklist mail blacklist false;;
        if negb blocked
        then FreshFilter_loop rest (fresh ++ [mail])
        else FreshFilter_loop rest fresh
  end.

Definition FreshFilter (mails : list string) : M (list string) :=
  FreshFilter_loop mails [].

(** *** GetMail *)

Definition GetMail (c : Crawler) (page : string) : M unit :=
  let mails := Regexp.FindAllString Regexp.mail_at page in
  match mails with
  | [] =>
      if verbose (flags c) then report "no mail found" else ret tt
  | _ :: _ =>
      fresh <- FreshFilter mails;;
      if negb (List.length fresh =? 0)%nat then ret tt
      else
        let toWrite := Strings.Join fresh NL in
        WriteString (file c) (toWrite ++ NL);;
        (if printToStdout (flags c) then Println toWrite else ret tt);;
        Sync (file c);;
        ret tt
  end.

(** *** FetchPage *)

Section Network.

(** The network: what the [n]-th request of the run, made to [url],
    meets. *)
Variable net : nat -> string -> Response.

Definition Get (url : string) : M Response :=
  fun w =>
    (net (List.length (requests w)) url,
     mkWorld (stdout w) (stderr w) (log w) (requests w ++ [url])).

Definition FetchPage (c : Crawler) (url : string) : M (string * error) :=
  (if verbose (flags c) then print ("Fetching: " ++ url ++ NL) else ret tt);;
  resp <- Get url;;
  match resp with
  | GetFails err => report err;; ret ("", Some err)
  | ReadFails b err => ret (b, Some err)
  | Served b => ret (b, None)
  end.

(** *** The three source scrapers

    [Pastebin], [Debian] and [Slexy] are the same function up to seven
    constants, gathered in a [Source]. *)

Record Source : Type := mkSource {
  listing : string;       (** [url] *)
  link_open : list Regexp.atom;  (** what stands before [(.*?)] in [r] *)
  link_close : string;    (** the literal after it *)
  separator : string;     (** second argument of [strings.Split] *)
  min_parts : nat;        (** bound in [len(parser) < n] *)
  part : nat;             (** index taken from [parser] *)
  raw_base : string;      (** what the raw link starts with *)
  trailer : string;       (** what [strings.Replace] removes *)
}.

Definition rawlink (src : Source) (parser : list string) : string :=
  raw_base src ++ Strings.Replace (nth (part src) parser "") (trailer src) "".

(** The loop [for _, v := range raws].  The result tells whether the
    range was exhausted ([true]) or the function returned from inside the
    loop ([false]). *)
Fixpoint visit (c : Crawler) (src : Source) (raws : list string) : M bool :=
  match raws with
  | [] => ret true
  | v :: rest =>
      let parser := Strings.Split v (separator src) in
      if (List.length parser <? min_parts src)%nat then
        report "can't parse";; ret false
      else
        fetched <- FetchPage c (rawlink src parser);;
        match snd fetched with
        | Some err => report err;; ret false
        | None => GetMail c (fst fetched);; visit c src rest
        end
  end.

Definition scrape (c : Crawler) (src : Source) : M unit :=
  fetched <- FetchPage c (listing src);;
  (match snd fetched with Some err => report err | None => ret tt end);;
  let raws :=
    Regexp.FindAllString (Regexp.link_at (link_open src) (link_close src))
                         (fst fetched) in
  match raws with
  | [] => if verbose (flags c) then report "no raw link" else ret tt
  | _ :: _ => visit c src raws;; ret tt
  end.

Definition pastebin_com : Source :=
  mkSource "https://pastebin.com/archive"
           (Regexp.lit ("class=" ++ DQ ++ "i_p0" ++ DQ ++ " alt=" ++ DQ ++ DQ
                        ++ " /><a href=" ++ DQ))
           (DQ ++ ">")
           ("=" ++ DQ) 4 3
           "https://pastebin.com/raw" (DQ ++ ">").

Definition paste_debian_net : Source :=
  mkSource "http://paste.debian.net"
           (Regexp.lit "<li><a href='//paste" ++ [Regexp.AnyNotNL]
            ++ Regexp.lit "debian" ++ [Regexp.AnyNotNL]
            ++ Regexp.lit "net")%list
           "'>"
           "<li><a href='//" 2 1
           "http://" "'>".

Definition slexy_org : Source :=
  mkSource "http://slexy.org/recent"
           (Regexp.lit "/view") (DQ ++ ">")
           "/view" 2 1
           "http://slexy.org/raw" (DQ ++ ">").

Definition Pastebin (c : Crawler) : M unit := scrape c pastebin_com.
Definition Debian (c : Crawler) : M unit := scrape c paste_debian_net.
Definition Slexy (c : Crawler) : M unit := scrape c slexy_org.

(** What one iteration of [Run] starts, in the order of the [go]
    statements.  The goroutines run concurrently and [wg.Wait] joins
    them; their interleaving is not part of this embedding. *)
Definition launched (c : Crawler) : list (M unit) :=
  (if pastebin (flags c) then [Pastebin c] else [])
  ++ (if debian (flags c) then [Debian c] else [])
  ++ (if slexy (flags c) then [Slexy c] else []).

End Network.

(** * Vocabulary of the statements

    Worlds, predicates and observations in which the properties below are
    phrased. *)

(** [sub] occurs somewhere in [s]. *)
Definition occurs_in (sub s : string) : Prop :=
  exists l r, s = l ++ sub ++ r.

(** An anchored matcher consumes when what follows a match is shorter than
    the text the match was tried on. *)
Definition consuming (at_head : string -> option (string * string)) : Prop :=
  forall s m rest, at_head s = Some (m, rest) -> length rest < length s.

(** The world after [s] has been printed on standard output. *)
Definition say (s : string) (w : World) : World :=
  mkWorld (stdout w ++ s) (stderr w) (log w) (requests w).

(** The world after [lines] have been reported on standard error. *)
Definition complain (lines : list string) (w : World) : World :=
  mkWorld (stdout w) (stderr w ++ lines) (log w) (requests w).

(** The checks made before the blacklist is consulted. *)
Definition well_shaped (mail : string) : bool :=
  negb (Strings.Contains mail ".png")
  && negb (Strings.Contains mail ".gif")
  && negb (Strings.Contains mail ".jpg")
  && negb (Strings.Contains mail "._")
  && negb (Strings.Contains mail "@.")
  && Strings.Contains mail ".".

Definition listed (bl : list string) (mail : string) : bool :=
  existsb (String.eqb mail) bl.

Definition kept (mail : string) : bool :=
  well_shaped mail && negb (listed blacklist mail).

(** What the blacklist loop prints for one mail. *)
Fixpoint blacklist_echo (mail : string) (bl : list string) : string :=
  match bl with
  | [] => ""
  | black :: bl' =>
      if (mail =? black)%string
      then (mail ++ " " ++ black ++ NL) ++ blacklist_echo mail bl'
      else blacklist_echo mail bl'
  end.

(** What [FreshFilter] prints for a list of mails. *)
Fixpoint filter_echo (mails : list string) : string :=
  match mails with
  | [] => ""
  | mail :: rest =>
      (if well_shaped mail then blacklist_echo mail blacklist else "")
      ++ filter_echo rest
  end.

(** The reject set in the words of the specification. *)
Definition rejected (mail : string) : Prop :=
  occurs_in ".png" mail \/ occurs_in ".gif" mail \/ occurs_in ".jpg" mail
  \/ occurs_in "._" mail \/ occurs_in "@." mail
  \/ ~ occurs_in "." mail
  \/ In mail blacklist.

(** The world after [s] has been written through the handle [f]. *)
Definition written (f : option File) (s : string) (w : World) : World :=
  run (WriteString f s) w.

(** The flags as [init] declares their defaults, and an empty world. *)
Definition default_flags : Flags :=
  mkFlags "crawler.log" true false true true true.

Definition fresh_world : World := mkWorld "" [] "" [].

(** One console line per mail, as [fmt.Println(mail, black)] prints it when
    the two are equal. *)
Definition echo_lines (mails : list string) : string :=
  String.concat "" (map (fun mail => mail ++ " " ++ mail ++ NL) mails).

(** The world in which [FetchPage] meets the network: after the verbose
    trace line and the request itself. *)
Definition asked (net : nat -> string -> Response) (c : Crawler)
           (url : string) (w : World) : World :=
  run (Get net url)
      (if verbose (flags c) then say ("Fetching: " ++ url ++ NL) w else w).

(** The three sources the program knows. *)
Definition sources : list Source := [pastebin_com; paste_debian_net; slexy_org].

(** The raw-document URL the loop derives from a fragment. *)
Definition document_url (src : Source) (v : string) : string :=
  rawlink src (Strings.Split v (separator src)).

(** The fragment does not split into enough parts: the loop reports
    a parse failure. *)
Definition malformed (src : Source) (v : string) : Prop :=
  List.length (Strings.Split v (separator src)) < min_parts src.

(** What [GetMail] writes on standard error for one page. *)
Definition GetMail_diagnostics (c : Crawler) (page : string) : list string :=
  match Regexp.FindAllString Regexp.mail_at page with
  | [] => if verbose (flags c) then ["no mail found"] else []
  | _ :: _ => []
  end.

(** A fragment as the pattern of [Pastebin] matches it. *)
Definition pastebin_fragment (path : string) : string :=
  "class=" ++ DQ ++ "i_p0" ++ DQ ++ " alt=" ++ DQ ++ DQ ++ " /><a href="
  ++ DQ ++ path ++ DQ ++ ">".

(** Two worlds that agree on everything but the bytes of the log file. *)
Definition same_console (w w' : World) : Prop :=
  stdout w = stdout w' /\ stderr w = stderr w' /\ requests w = requests w'.

(** Every byte of [s] satisfies [p]. *)
Fixpoint all (p : ascii -> bool) (s : string) : bool :=
  match s with
  | "" => true
  | String c s' => p c && all p s'
  end.

(** The lexical shape of a candidate: word characters, an at-sign, word
    characters or dots, with neither side empty. *)
Definition mail_shaped (m : string) : Prop :=
  exists local domain,
    m = local ++ "@" ++ domain
    /\ local <> "" /\ domain <> ""
    /\ all Regexp.is_word local = true
    /\ all Regexp.is_word_or_dot domain = true.

(** A run of [k] newline bytes. *)
Fixpoint newlines (k : nat) : string :=
  match k with
  | 0 => ""
  | S k' => String nl (newlines k')
  end.

(** The fragments a scraper finds in a listing body. *)
Definition fragments (src : Source) (body : string) : list string :=
  Regexp.FindAllString (Regexp.link_at (link_open src) (link_close src)) body.





(** * Properties *)

(** ** Strings *)

Lemma append_nil_r (s : string) : s ++ "" = s.
Proof. induction s as [|c s IH]; simpl; [reflexivity | now rewrite IH]. Qed.

Lemma append_assoc (a b c : string) : (a ++ b) ++ c = a ++ b ++ c.
Proof. induction a as [|x a IH]; simpl; [reflexivity | now rewrite IH]. Qed.

Lemma length_append (a b : string) : length (a ++ b) = length a + length b.
Proof. induction a as [|x a IH]; simpl; [reflexivity | now rewrite IH]. Qed.

Lemma skip_append (p r : string) : Strings.skip (length p) (p ++ r) = r.
Proof. induction p as [|c p IH]; simpl; [reflexivity | exact IH]. Qed.

Lemma HasPrefix_spec (s p : string) :
  Strings.HasPrefix s p = true <-> exists r, s = p ++ r.
Proof.
  revert s; induction p as [|a p IH]; intros s; simpl.
  - split; [intros _; now exists s | reflexivity].
  - destruct s as [|b s].
    + split; [discriminate | intros [r H]; discriminate].
    + rewrite andb_true_iff, Ascii.eqb_eq, IH. split.
      * intros [-> [r ->]]. now exists r.
      * intros [r H]. injection H as -> ->. split; [reflexivity | now exists r].
Qed.

Lemma Contains_spec (s sub : string) :
  Strings.Contains s sub = true <-> occurs_in sub s.
Proof.
  unfold occurs_in. induction s as [|c s IH].
  - cbn [Strings.Contains]. rewrite orb_false_r, HasPrefix_spec. split.
    + intros [r H]. now exists "", r.
    + intros [l [r H]]. destruct l; [now exists r | discriminate].
  - cbn [Strings.Contains]. rewrite orb_true_iff, HasPrefix_spec, IH. split.
    + intros [[r H] | [l [r H]]].
      * now exists "", r.
      * exists (String c l), r. simpl. now rewrite H.
    + intros [l [r H]]. destruct l as [|x l].
      * left. now exists r.
      * right. simpl in H. injection H as _ H. now exists l, r.
Qed.

Lemma Contains_false (s sub : string) :
  Strings.Contains s sub = false <-> ~ occurs_in sub s.
Proof.
  rewrite <- Contains_spec. symmetry. apply not_true_iff_false.
Qed.

Lemma HasPrefix_skip (s p : string) :
  Strings.HasPrefix s p = true -> s = p ++ Strings.skip (length p) s.
Proof.
  intros H. apply HasPrefix_spec in H as [r ->]. now rewrite skip_append.
Qed.

(** [Cut] finds the leftmost occurrence and splits around it. *)
Lemma Cut_Some (s sep before after : string) :
  Strings.Cut s sep = Some (before, after) -> s = before ++ sep ++ after.
Proof.
  revert before after; induction s as [|c s IH]; intros before after;
    cbn [Strings.Cut].
  - destruct (Strings.HasPrefix "" sep) eqn:E; [|discriminate].
    intros H; injection H as <- <-. now apply HasPrefix_skip.
  - destruct (Strings.HasPrefix (String c s) sep) eqn:E.
    + intros H; injection H as <- <-. now apply HasPrefix_skip.
    + destruct (Strings.Cut s sep) as [[b a]|]; [|discriminate].
      intros H; injection H as <- <-. simpl. now rewrite (IH b a eq_refl).
Qed.

Lemma Cut_shrinks (s sep before after : string) :
  sep <> "" -> Strings.Cut s sep = Some (before, after) ->
  length after < length s.
Proof.
  intros Hsep H. apply Cut_Some in H. subst s.
  rewrite !length_append. destruct sep; [congruence | simpl; lia].
Qed.

(** The fuel of [Split] and [Replace] never runs out before the text
    does: any larger amount gives the same result. *)
Lemma Split_loop_fuel (sep : string) (fuel : nat) :
  sep <> "" -> forall s, length s <= fuel ->
  Strings.Split_loop fuel s sep = Strings.Split s sep.
Proof.
  intros Hsep. unfold Strings.Split.
  induction fuel as [fuel IH] using lt_wf_ind. intros s Hle.
  destruct fuel as [|fuel].
  - now replace (length s) with 0 by lia.
  - destruct (length s) as [|n] eqn:El; cbn [Strings.Split_loop].
    + destruct (Strings.Cut s sep) as [[b a]|] eqn:Ec; [|reflexivity].
      apply Cut_shrinks in Ec; [lia | assumption].
    + destruct (Strings.Cut s sep) as [[b a]|] eqn:Ec; [|reflexivity].
      apply Cut_shrinks in Ec; [|assumption].
      f_equal. rewrite (IH fuel) by lia. symmetry. apply IH; lia.
Qed.

Lemma Replace_loop_fuel (old new : string) (fuel : nat) :
  old <> "" -> forall s, length s <= fuel ->
  Strings.Replace_loop fuel s old new = Strings.Replace s old new.
Proof.
  intros Hold. unfold Strings.Replace.
  induction fuel as [fuel IH] using lt_wf_ind. intros s Hle.
  destruct fuel as [|fuel].
  - now replace (length s) with 0 by lia.
  - destruct (length s) as [|n] eqn:El; cbn [Strings.Replace_loop].
    + destruct (Strings.Cut s old) as [[b a]|] eqn:Ec; [|reflexivity].
      apply Cut_shrinks in Ec; [lia | assumption].
    + destruct (Strings.Cut s old) as [[b a]|] eqn:Ec; [|reflexivity].
      apply Cut_shrinks in Ec; [|assumption].
      do 2 f_equal. rewrite (IH fuel) by lia. symmetry. apply IH; lia.
Qed.

Lemma Split_nonempty (fuel : nat) (s sep : string) :
  1 <= List.length (Strings.Split_loop fuel s sep).
Proof.
  destruct fuel; cbn [Strings.Split_loop]; [simpl; lia|].
  destruct (Strings.Cut s sep) as [[b a]|]; simpl; lia.
Qed.

(** ** Regular expressions *)

Lemma span_append (p : ascii -> bool) (s : string) :
  fst (Regexp.span p s) ++ snd (Regexp.span p s) = s.
Proof.
  induction s as [|c s IH]; simpl; [reflexivity|].
  destruct (p c); [|reflexivity].
  destruct (Regexp.span p s) as [run rest]; simpl in *. now rewrite IH.
Qed.

(** A match of the mail pattern is a non-empty prefix of the text it was
    tried on, and [rest] is what follows it. *)
Lemma mail_at_Some (s m rest : string) :
  Regexp.mail_at s = Some (m, rest) -> s = m ++ rest /\ m <> "".
Proof.
  unfold Regexp.mail_at.
  pose proof (span_append Regexp.is_word s) as H1.
  destruct (Regexp.span Regexp.is_word s) as [local r1]; simpl in H1.
  destruct local as [|a local]; [discriminate|].
  destruct r1 as [|c r2]; [discriminate|].
  destruct (Ascii.eqb_spec c "@") as [->|]; [|discriminate].
  pose proof (span_append Regexp.is_word_or_dot r2) as H2.
  destruct (Regexp.span Regexp.is_word_or_dot r2) as [domain r3]; simpl in H2.
  destruct domain as [|d domain]; [discriminate|].
  intros H; injection H as <- <-. split; [|discriminate].
  rewrite <- H1, <- H2. simpl. f_equal.
  now rewrite !append_assoc.
Qed.

Lemma lazy_until_Some (suffix s m rest : string) :
  Regexp.lazy_until suffix s = Some (m, rest) ->
  s = m ++ rest /\ exists mid, m = mid ++ suffix.
Proof.
  revert m rest; induction s as [|c s IH]; intros m rest;
    cbn [Regexp.lazy_until].
  - destruct (Strings.HasPrefix "" suffix) eqn:E; [|discriminate].
    intros H; injection H as <- <-. split.
    + now apply HasPrefix_skip.
    + now exists "".
  - destruct (Strings.HasPrefix (String c s) suffix) eqn:E.
    + intros H; injection H as <- <-. split.
      * now apply HasPrefix_skip.
      * now exists "".
    + destruct (Ascii.eqb c nl); [discriminate|].
      destruct (Regexp.lazy_until suffix s) as [[m' rest']|]; [|discriminate].
      intros H; injection H as <- <-.
      destruct (IH m' rest' eq_refl) as [-> [mid ->]]. split.
      * reflexivity.
      * now exists (String c mid).
Qed.

Lemma take_skip (n : nat) (s : string) :
  Strings.take n s ++ Strings.skip n s = s.
Proof.
  revert s; induction n as [|n IH]; intros [|c s]; cbn; try reflexivity.
  now rewrite IH.
Qed.

Lemma any_not_nl_Some (s d rest : string) :
  Regexp.any_not_nl s = Some (d, rest) -> s = d ++ rest.
Proof.
  unfold Regexp.any_not_nl. destruct s as [|c s]; [discriminate|].
  destruct (Ascii.eqb c nl); [discriminate|].
  intros H; injection H as <- <-. now rewrite take_skip.
Qed.

(** What the atoms matched is a prefix of the text, and it is not empty
    when the first atom is a byte. *)
Lemma match_open_Some (P : list Regexp.atom) (s m rest : string) :
  Regexp.match_open P s = Some (m, rest) -> s = m ++ rest.
Proof.
  revert s m rest; induction P as [|[c|] P IH]; intros s m rest;
    cbn [Regexp.match_open].
  - intros H; now injection H as <- <-.
  - destruct s as [|x s]; [discriminate|].
    destruct (Ascii.eqb c x); [|discriminate].
    destruct (Regexp.match_open P s) as [[m' r]|] eqn:E; [|discriminate].
    intros H; injection H as <- <-. cbn. now rewrite (IH _ _ _ E).
  - destruct (Regexp.any_not_nl s) as [[d s']|] eqn:Ed; [|discriminate].
    destruct (Regexp.match_open P s') as [[m' r]|] eqn:E; [|discriminate].
    intros H; injection H as <- <-.
    apply any_not_nl_Some in Ed. rewrite Ed, (IH _ _ _ E).
    now rewrite append_assoc.
Qed.

Lemma match_open_byte (c : ascii) (P : list Regexp.atom) (s m rest : string) :
  Regexp.match_open (Regexp.Byte c :: P) s = Some (m, rest) ->
  exists m' s', s = String c s' /\ m = String c m'
                /\ Regexp.match_open P s' = Some (m', rest).
Proof.
  cbn [Regexp.match_open]. destruct s as [|x s]; [discriminate|].
  destruct (Ascii.eqb_spec c x) as [<-|]; [|discriminate].
  destruct (Regexp.match_open P s) as [[m' r]|] eqn:E; [|discriminate].
  intros H; injection H as <- <-. now exists m', s.
Qed.

(** A run of literal bytes at the head of the pattern matches itself. *)
Lemma match_open_lit (p : string) (P : list Regexp.atom) (s m rest : string) :
  Regexp.match_open (Regexp.lit p ++ P) s = Some (m, rest) ->
  exists m' s', s = p ++ s' /\ m = p ++ m'
                /\ Regexp.match_open P s' = Some (m', rest).
Proof.
  revert s m; induction p as [|c p IH]; intros s m H.
  - now exists m, s.
  - cbn [Regexp.lit app] in H.
    apply match_open_byte in H as [m1 [s1 [-> [-> H]]]].
    apply IH in H as [m' [s' [-> [-> H]]]]. now exists m', s'.
Qed.

Lemma match_open_lit_only (p s m rest : string) :
  Regexp.match_open (Regexp.lit p) s = Some (m, rest) -> m = p.
Proof.
  rewrite <- (app_nil_r (Regexp.lit p)). intros H.
  apply match_open_lit in H as [m' [s' [_ [-> H]]]].
  cbn in H. injection H as <- _. apply append_nil_r.
Qed.

(** A match of [P(.*?)S] is a prefix of the text it was tried on: what [P]
    matched, a middle, and [S]. *)
Lemma link_at_Some (P : list Regexp.atom) (S s m rest : string) :
  Regexp.link_at P S s = Some (m, rest) ->
  s = m ++ rest
  /\ exists opening mid s',
       Regexp.match_open P s = Some (opening, s')
       /\ m = opening ++ mid ++ S.
Proof.
  unfold Regexp.link_at.
  destruct (Regexp.match_open P s) as [[opening s']|] eqn:E; [|discriminate].
  destruct (Regexp.lazy_until S s') as [[m' rest']|] eqn:El; [|discriminate].
  intros H; injection H as <- <-.
  apply lazy_until_Some in El as [El [mid ->]].
  apply match_open_Some in E. split.
  - rewrite append_assoc, <- El. exact E.
  - now exists opening, mid, s'.
Qed.

Lemma mail_at_consuming : consuming Regexp.mail_at.
Proof.
  intros s m rest H. apply mail_at_Some in H as [-> Hm].
  rewrite length_append. destruct m; [congruence | simpl; lia].
Qed.

Lemma link_at_consuming (c : ascii) (P : list Regexp.atom) (S : string) :
  consuming (Regexp.link_at (Regexp.Byte c :: P) S).
Proof.
  intros s m rest H.
  apply link_at_Some in H as [-> [opening [mid [s' [Ho ->]]]]].
  apply match_open_byte in Ho as [m' [s1 [_ [-> _]]]].
  rewrite !length_append. simpl. lia.
Qed.

(** For a consuming matcher the fuel of [FindAllString] never runs out
    before the text does: any larger amount gives the same matches. *)
Lemma find_all_fuel (at_head : string -> option (string * string)) :
  consuming at_head ->
  forall fuel s, length s < fuel ->
  Regexp.find_all at_head fuel s = Regexp.FindAllString at_head s.
Proof.
  intros Hc. unfold Regexp.FindAllString.
  induction fuel as [fuel IH] using lt_wf_ind. intros s Hlt.
  destruct fuel as [|fuel]; [lia|].
  cbn [Regexp.find_all].
  destruct (at_head s) as [[m rest]|] eqn:E.
  - apply Hc in E. f_equal.
    rewrite (IH fuel) by lia. symmetry.
    destruct (length s) as [|n] eqn:El; [lia|].
    apply (IH (S n)); lia.
  - destruct s as [|c s]; [reflexivity|]. simpl in Hlt.
    rewrite (IH fuel) by lia. symmetry. simpl length.
    apply (IH (S (length s))); simpl; lia.
Qed.

(** In particular the mail pattern and the link pattern of each of the
    three sources are searched to the end of the text. *)
Lemma find_all_mail_fuel (fuel : nat) (s : string) :
  length s < fuel ->
  Regexp.find_all Regexp.mail_at fuel s
  = Regexp.FindAllString Regexp.mail_at s.
Proof. apply find_all_fuel, mail_at_consuming. Qed.

Lemma find_all_link_fuel (src : Source) (fuel : nat) (s : string) :
  In src sources -> length s < fuel ->
  Regexp.find_all (Regexp.link_at (link_open src) (link_close src)) fuel s
  = Regexp.FindAllString (Regexp.link_at (link_open src) (link_close src)) s.
Proof.
  intros Hin. apply find_all_fuel.
  destruct Hin as [<-|[<-|[<-|[]]]]; apply link_at_consuming.
Qed.

(** Every element of the result is a match of the anchored matcher
    somewhere in the text. *)
Lemma find_all_In (at_head : string -> option (string * string))
      (fuel : nat) (s v : string) :
  In v (Regexp.find_all at_head fuel s) ->
  exists s' rest, at_head s' = Some (v, rest).
Proof.
  revert s; induction fuel as [|fuel IH]; intros s; cbn [Regexp.find_all].
  - intros [].
  - destruct (at_head s) as [[m rest]|] eqn:E.
    + intros [<- | H]; [now exists s, rest | now apply (IH rest)].
    + destruct s as [|c s]; [intros [] | apply IH].
Qed.

(** ** The state monad *)

Lemma say_nil (w : World) : say "" w = w.
Proof. destruct w; unfold say; simpl. now rewrite append_nil_r. Qed.

Lemma say_say (a b : string) (w : World) : say b (say a w) = say (a ++ b) w.
Proof. unfold say; simpl. now rewrite append_assoc. Qed.

Lemma run_bind {A B : Type} (m : M A) (k : A -> M B) (w : World) :
  run (bind m k) w = run (k (result m w)) (run m w).
Proof. reflexivity. Qed.

Lemma result_bind {A B : Type} (m : M A) (k : A -> M B) (w : World) :
  result (bind m k) w = result (k (result m w)) (run m w).
Proof. reflexivity. Qed.

Lemma run_print (s : string) (w : World) : run (print s) w = say s w.
Proof. reflexivity. Qed.

(** ** FreshFilter *)

Lemma scan_blacklist_result (mail : string) (bl : list string)
      (blocked : bool) (w : World) :
  result (scan_blacklist mail bl blocked) w = blocked || listed bl mail.
Proof.
  revert blocked w; induction bl as [|black bl IH]; intros blocked w;
    cbn [scan_blacklist listed existsb].
  - unfold result, ret; simpl. now rewrite orb_false_r.
  - destruct (mail =? black)%string.
    + rewrite result_bind, IH. simpl. now rewrite orb_true_r.
    + rewrite IH. reflexivity.
Qed.

Lemma scan_blacklist_run (mail : string) (bl : list string)
      (blocked : bool) (w : World) :
  run (scan_blacklist mail bl blocked) w = say (blacklist_echo mail bl) w.
Proof.
  revert blocked w; induction bl as [|black bl IH]; intros blocked w;
    cbn [scan_blacklist blacklist_echo].
  - now rewrite say_nil.
  - destruct (mail =? black)%string.
    + rewrite run_bind, IH. unfold Println2. now rewrite run_print, say_say.
    + apply IH.
Qed.

Lemma FreshFilter_loop_kept (mails : list string) (mail : string)
      (fresh : list string) (w : World) :
  FreshFilter_loop (mail :: mails) fresh w =
  FreshFilter_loop mails (if kept mail then fresh ++ [mail] else fresh)
    (say (if well_shaped mail then blacklist_echo mail blacklist else "") w).
Proof.
  cbn [FreshFilter_loop]. unfold kept, well_shaped.
  destruct (Strings.Contains mail ".png"); cbn [negb andb];
    [now rewrite say_nil|].
  destruct (Strings.Contains mail ".gif"); cbn [negb andb];
    [now rewrite say_nil|].
  destruct (Strings.Contains mail ".jpg"); cbn [negb andb];
    [now rewrite say_nil|].
  destruct (Strings.Contains mail "._"); cbn [negb andb];
    [now rewrite say_nil|].
  destruct (Strings.Contains mail "@."); cbn [negb andb];
    [now rewrite say_nil|].
  destruct (Strings.Contains mail "."); cbn [negb andb];
    [|now rewrite say_nil].
  unfold bind.
  change (snd (scan_blacklist mail blacklist false w))
    with (run (scan_blacklist mail blacklist false) w).
  change (fst (scan_blacklist mail blacklist false w))
    with (result (scan_blacklist mail blacklist false) w).
  rewrite scan_blacklist_result, scan_blacklist_run. cbn [orb].
  now destruct (listed blacklist mail).
Qed.

Lemma FreshFilter_loop_result (mails fresh : list string) (w : World) :
  result (FreshFilter_loop mails fresh) w = (fresh ++ filter kept mails)%list.
Proof.
  revert fresh w; induction mails as [|mail mails IH]; intros fresh w.
  - simpl. now rewrite app_nil_r.
  - unfold result in *. rewrite FreshFilter_loop_kept, IH.
    cbn [filter]. destruct (kept mail); [|reflexivity].
    now rewrite <- app_assoc.
Qed.

Lemma FreshFilter_loop_run (mails fresh : list string) (w : World) :
  run (FreshFilter_loop mails fresh) w = say (filter_echo mails) w.
Proof.
  revert fresh w; induction mails as [|mail mails IH]; intros fresh w.
  - simpl. now rewrite say_nil.
  - unfold run in *. rewrite FreshFilter_loop_kept, IH.
    cbn [filter_echo]. now rewrite say_say.
Qed.

(** [FreshFilter] returns the mails for which [kept] holds, in their
    order, and touches nothing but standard output. *)
Lemma FreshFilter_result (mails : list string) (w : World) :
  result (FreshFilter mails) w = filter kept mails.
Proof. unfold FreshFilter. now rewrite FreshFilter_loop_result. Qed.

Lemma FreshFilter_run (mails : list string) (w : World) :
  run (FreshFilter mails) w = say (filter_echo mails) w.
Proof. unfold FreshFilter. apply FreshFilter_loop_run. Qed.

Lemma Contains_reflect (s sub : string) :
  reflect (occurs_in sub s) (Strings.Contains s sub).
Proof. apply iff_reflect. symmetry. apply Contains_spec. Qed.

Lemma listed_reflect (bl : list string) (mail : string) :
  reflect (In mail bl) (listed bl mail).
Proof.
  apply iff_reflect. unfold listed. rewrite existsb_exists. split.
  - intros H. exists mail. split; [assumption | apply String.eqb_refl].
  - intros [x [H E]]. apply String.eqb_eq in E. now subst.
Qed.

Lemma kept_spec (mail : string) : kept mail = false <-> rejected mail.
Proof.
  unfold kept, well_shaped, rejected.
  destruct (Contains_reflect mail ".png"); cbn [negb andb]; [tauto|].
  destruct (Contains_reflect mail ".gif"); cbn [negb andb]; [tauto|].
  destruct (Contains_reflect mail ".jpg"); cbn [negb andb]; [tauto|].
  destruct (Contains_reflect mail "._"); cbn [negb andb]; [tauto|].
  destruct (Contains_reflect mail "@."); cbn [negb andb]; [tauto|].
  destruct (Contains_reflect mail "."); cbn [negb andb]; [|tauto].
  destruct (listed_reflect blacklist mail); cbn [negb]; [tauto|].
  split; [discriminate | tauto].
Qed.

Lemma kept_true (mail : string) : kept mail = true <-> ~ rejected mail.
Proof.
  rewrite <- kept_spec. destruct (kept mail); split; congruence.
Qed.

(** C3.  Applied to a single candidate, [FreshFilter] returns nothing
    exactly when the candidate contains [.png], [.gif], [.jpg], [._] or
    [@.], or contains no dot, or is an entry of the blacklist, and returns
    the candidate itself in every other case; within a list, the
    candidates it returns are exactly those that are not rejected. *)
Theorem FreshFilter_rejects_iff (mails : list string) (mail : string)
        (w : World) :
  (result (FreshFilter [mail]) w = [] <-> rejected mail)
  /\ (result (FreshFilter [mail]) w = [mail] <-> ~ rejected mail)
  /\ (In mail (result (FreshFilter mails) w)
      <-> In mail mails /\ ~ rejected mail).
Proof.
  rewrite !FreshFilter_result. cbn [filter].
  pose proof (kept_spec mail) as Hf. pose proof (kept_true mail) as Ht.
  split; [|split].
  - destruct (kept mail); split; intros H;
      try discriminate; try reflexivity; tauto.
  - destruct (kept mail); split; intros H;
      try discriminate; try reflexivity; tauto.
  - rewrite filter_In. tauto.
Qed.

(** ** GetMail *)

(** When no candidate survives, the guard [len(fresh) != 0] lets the
    function through to the write: the batch is the join of the empty
    list. *)
Lemma GetMail_empty_fresh (c : Crawler) (page : string) (w : World) :
  Regexp.FindAllString Regexp.mail_at page <> [] ->
  filter kept (Regexp.FindAllString Regexp.mail_at page) = [] ->
  run (GetMail c page) w =
  (if printToStdout (flags c) then say NL else fun w' => w')
    (written (file c) NL
       (say (filter_echo (Regexp.FindAllString Regexp.mail_at page)) w)).
Proof.
  intros Hm Hf. unfold GetMail.
  destruct (Regexp.FindAllString Regexp.mail_at page) as [|m mails] eqn:E;
    [congruence|].
  rewrite run_bind, FreshFilter_result, FreshFilter_run, Hf.
  cbn [List.length Nat.eqb negb Strings.Join String.concat].
  rewrite !run_bind. unfold written.
  destruct (printToStdout (flags c)), (file c) as [[]|]; reflexivity.
Qed.

(** When some candidate survives, the same guard returns before the
    write. *)
Lemma GetMail_nonempty_fresh (c : Crawler) (page : string) (w : World) :
  filter kept (Regexp.FindAllString Regexp.mail_at page) <> [] ->
  run (GetMail c page) w =
  say (filter_echo (Regexp.FindAllString Regexp.mail_at page)) w.
Proof.
  intros Hf. unfold GetMail.
  destruct (Regexp.FindAllString Regexp.mail_at page) as [|m mails] eqn:E;
    [now elim Hf|].
  rewrite run_bind, FreshFilter_result, FreshFilter_run.
  destruct (filter kept (m :: mails)); [now elim Hf | reflexivity].
Qed.

Lemma GetMail_no_match (c : Crawler) (page : string) (w : World) :
  Regexp.FindAllString Regexp.mail_at page = [] ->
  run (GetMail c page) w =
  if verbose (flags c) then complain ["no mail found"] w else w.
Proof.
  intros E. unfold GetMail. rewrite E.
  now destruct (verbose (flags c)).
Qed.

(** C1.  On the page [alice@example.com] the filtered list is the single
    address [alice@example.com], and [GetMail], whatever the flags and the
    file handle, leaves the whole world, the log file included, as it
    was: the batch is not written. *)
Theorem GetMail_skips_fresh_batch (c : Crawler) (w : World) :
  result (FreshFilter (Regexp.FindAllString Regexp.mail_at
                         "alice@example.com")) w
  = ["alice@example.com"]
  /\ run (GetMail c "alice@example.com") w = w.
Proof.
  split.
  - now rewrite FreshFilter_result.
  - rewrite GetMail_nonempty_fresh by (vm_compute; discriminate).
    apply say_nil.
Qed.

(** C2.  On the page [foo@bar] the extraction finds the candidate
    [foo@bar], the filter rejects it, and [GetMail] appends a newline to
    the log file and prints a newline on standard output. *)
Theorem GetMail_writes_empty_batch (w : World) :
  Regexp.FindAllString Regexp.mail_at "foo@bar" = ["foo@bar"]
  /\ result (FreshFilter ["foo@bar"]) w = []
  /\ log (run (GetMail (mkCrawler default_flags (Some LogFile)) "foo@bar") w)
     = log w ++ NL
  /\ stdout (run (GetMail (mkCrawler default_flags (Some LogFile))
                          "foo@bar") w)
     = stdout w ++ NL.
Proof.
  split; [reflexivity|]. split; [now rewrite FreshFilter_result|].
  rewrite GetMail_empty_fresh by (vm_compute; (discriminate || reflexivity)).
  split.
  - reflexivity.
  - simpl. now rewrite append_nil_r.
Qed.

(** C4 as stated fails: on the document body of the scenario the
    extraction-plus-filter pipeline does not yield the single address
    [alice@example.com]. *)
Lemma scenario_body_not_one_address :
  result (FreshFilter
            (Regexp.FindAllString Regexp.mail_at
               "contact me at alice@example.com or see logo.png@site.x"))
         fresh_world
  <> ["alice@example.com"].
Proof. rewrite FreshFilter_result. vm_compute. discriminate. Qed.

(** C4, amended.  On the document body of the scenario the extraction
    yields the two matches [alice@example.com] and [png@site.x]: the
    second match starts after the dot of [logo.png], does not contain
    [.png], and is kept, so the pipeline yields exactly these two
    addresses. *)
Theorem scenario_body_two_addresses (w : World) :
  Regexp.FindAllString Regexp.mail_at
    "contact me at alice@example.com or see logo.png@site.x"
  = ["alice@example.com"; "png@site.x"]
  /\ Strings.Contains "png@site.x" ".png" = false
  /\ result (FreshFilter
               (Regexp.FindAllString Regexp.mail_at
                  "contact me at alice@example.com or see logo.png@site.x"))
            w
     = ["alice@example.com"; "png@site.x"].
Proof.
  split; [reflexivity|]. split; [reflexivity|].
  now rewrite FreshFilter_result.
Qed.

(** The blacklist loop prints one line for a listed mail and nothing for
    any other. *)
Lemma blacklist_echo_listed (mail : string) :
  blacklist_echo mail blacklist =
  if listed blacklist mail then mail ++ " " ++ mail ++ NL else "".
Proof.
  unfold blacklist, listed. cbn [blacklist_echo existsb].
  destruct (String.eqb_spec mail "formorer@debian.org") as [->|_].
  - reflexivity.
  - destruct (String.eqb_spec mail "user@user") as [->|_]; reflexivity.
Qed.

Lemma concat_cons (s : string) (l : list string) :
  String.concat "" (s :: l) = s ++ String.concat "" l.
Proof.
  destruct l as [|x l]; cbn [String.concat].
  - now rewrite append_nil_r.
  - reflexivity.
Qed.

Lemma filter_echo_lines (mails : list string) :
  filter_echo mails =
  echo_lines (filter (listed blacklist) (filter well_shaped mails)).
Proof.
  unfold echo_lines. induction mails as [|mail mails IH].
  - reflexivity.
  - cbn [filter_echo filter]. rewrite IH.
    destruct (well_shaped mail); [|reflexivity].
    cbn [filter]. rewrite blacklist_echo_listed.
    destruct (listed blacklist mail); [|reflexivity].
    cbn [map]. now rewrite concat_cons.
Qed.

(** C7 as stated fails: on the page [formorer@debian.org], with the
    console echo switched off, every candidate is rejected and standard
    output still receives a line. *)
Lemma blacklisted_candidate_reaches_console :
  Regexp.FindAllString Regexp.mail_at "formorer@debian.org"
  = ["formorer@debian.org"]
  /\ result (FreshFilter ["formorer@debian.org"]) fresh_world = []
  /\ stdout (run (FreshFilter ["formorer@debian.org"]) fresh_world)
     = "formorer@debian.org formorer@debian.org" ++ NL
  /\ stdout (run (GetMail
                    (mkCrawler (mkFlags "crawler.log" false false true true true)
                               (Some LogFile))
                    "formorer@debian.org") fresh_world)
     <> stdout fresh_world.
Proof.
  split; [reflexivity|]. split; [now rewrite FreshFilter_result|].
  split; [now rewrite FreshFilter_run|].
  rewrite GetMail_empty_fresh by (vm_compute; (discriminate || reflexivity)).
  vm_compute. discriminate.
Qed.

(** C7, amended.  When extraction finds candidates and the filter rejects
    all of them, [GetMail] writes no line on standard error and makes no
    request, and the filter prints on standard output one line, the
    candidate twice, for each candidate that passes the shape checks and
    is an entry of the blacklist, and nothing for any other candidate. *)
Theorem filter_exhaustion_output (c : Crawler) (page : string) (w : World) :
  Regexp.FindAllString Regexp.mail_at page <> [] ->
  result (FreshFilter (Regexp.FindAllString Regexp.mail_at page)) w = [] ->
  stderr (run (GetMail c page) w) = stderr w
  /\ requests (run (GetMail c page) w) = requests w
  /\ run (FreshFilter (Regexp.FindAllString Regexp.mail_at page)) w
     = say (echo_lines
              (filter (listed blacklist)
                 (filter well_shaped
                    (Regexp.FindAllString Regexp.mail_at page)))) w.
Proof.
  intros Hm Hf. rewrite FreshFilter_result in Hf.
  rewrite FreshFilter_run, <- filter_echo_lines.
  rewrite GetMail_empty_fresh by assumption. unfold written.
  destruct (printToStdout (flags c)), (file c) as [[]|];
    repeat split; reflexivity.
Qed.

Lemma filter_exhaustion_output_witness :
  Regexp.FindAllString Regexp.mail_at "formorer@debian.org or foo@bar" <> []
  /\ result (FreshFilter
               (Regexp.FindAllString Regexp.mail_at
                  "formorer@debian.org or foo@bar")) fresh_world = []
  /\ stderr (run (GetMail (mkCrawler default_flags (Some LogFile))
                          "formorer@debian.org or foo@bar") fresh_world)
     = stderr fresh_world
  /\ run (FreshFilter ["formorer@debian.org"; "foo@bar"]) fresh_world
     = say ("formorer@debian.org formorer@debian.org" ++ NL) fresh_world.
Proof.
  assert (H1 : Regexp.FindAllString Regexp.mail_at
                 "formorer@debian.org or foo@bar" <> [])
    by (vm_compute; discriminate).
  assert (H2 : result (FreshFilter
                         (Regexp.FindAllString Regexp.mail_at
                            "formorer@debian.org or foo@bar")) fresh_world
               = [])
    by (vm_compute; reflexivity).
  split; [exact H1|]. split; [exact H2|].
  destruct (filter_exhaustion_output
              (mkCrawler default_flags (Some LogFile))
              "formorer@debian.org or foo@bar" fresh_world H1 H2)
    as [H3 [_ H4]].
  split; [exact H3 | exact H4].
Defined.

(** ** FetchPage *)

Section NetworkFacts.

Variable net : nat -> string -> Response.

Lemma asked_fields (c : Crawler) (url : string) (w : World) :
  stderr (asked net c url w) = stderr w
  /\ log (asked net c url w) = log w
  /\ requests (asked net c url w) = (requests w ++ [url])%list
  /\ stdout (asked net c url w)
     = (if verbose (flags c)
        then stdout w ++ "Fetching: " ++ url ++ NL else stdout w).
Proof. unfold asked. now destruct (verbose (flags c)). Qed.

Lemma FetchPage_cases (c : Crawler) (url : string) (w : World) :
  FetchPage net c url w =
  match net (List.length (requests w)) url with
  | GetFails err => (("", Some err), complain [err] (asked net c url w))
  | ReadFails b err => ((b, Some err), asked net c url w)
  | Served b => ((b, None), asked net c url w)
  end.
Proof.
  unfold FetchPage, asked, bind.
  destruct (verbose (flags c)); cbn [fst snd Get run requests say print ret];
    destruct (net (List.length (requests w)) url); reflexivity.
Qed.

(** C8 as stated fails: when the body cannot be read to the end,
    [FetchPage] returns the bytes read so far with the error and writes
    nothing on standard error. *)
Lemma FetchPage_read_failure_not_reported :
  result (FetchPage (fun _ _ => ReadFails "<html>" "unexpected EOF")
                    (mkCrawler default_flags (Some LogFile))
                    "http://slexy.org/recent") fresh_world
  = ("<html>", Some "unexpected EOF")
  /\ fst (result (FetchPage (fun _ _ => ReadFails "<html>" "unexpected EOF")
                            (mkCrawler default_flags (Some LogFile))
                            "http://slexy.org/recent") fresh_world)
     <> ""
  /\ stderr (run (FetchPage (fun _ _ => ReadFails "<html>" "unexpected EOF")
                            (mkCrawler default_flags (Some LogFile))
                            "http://slexy.org/recent") fresh_world)
     = stderr fresh_world.
Proof. repeat split. vm_compute. discriminate. Qed.

End NetworkFacts.

(** C8, amended.  [FetchPage] returns a non-nil error exactly when the GET
    or the reading of the body fails.  When the GET fails it writes the
    error on standard error once and returns the empty body; when reading
    the body fails it returns the bytes read so far and writes nothing on
    standard error; when the page is served it returns the body and a nil
    error, and writes nothing on standard error. *)
Theorem FetchPage_outcomes (net : nat -> string -> Response) (c : Crawler)
        (url : string) (w : World) :
  match net (List.length (requests w)) url with
  | GetFails err =>
      result (FetchPage net c url) w = ("", Some err)
      /\ stderr (run (FetchPage net c url) w) = (stderr w ++ [err])%list
  | ReadFails b err =>
      result (FetchPage net c url) w = (b, Some err)
      /\ stderr (run (FetchPage net c url) w) = stderr w
  | Served b =>
      result (FetchPage net c url) w = (b, None)
      /\ stderr (run (FetchPage net c url) w) = stderr w
  end.
Proof.
  unfold result, run. rewrite FetchPage_cases.
  destruct (asked_fields net c url w) as [He _].
  destruct (net (List.length (requests w)) url); cbn [fst snd complain stderr];
    rewrite ?He; split; reflexivity.
Qed.

(** ** The source scrapers *)

Lemma GetMail_fields (c : Crawler) (page : string) (w : World) :
  stderr (run (GetMail c page) w)
  = (stderr w ++ GetMail_diagnostics c page)%list
  /\ requests (run (GetMail c page) w) = requests w.
Proof.
  unfold GetMail_diagnostics.
  destruct (Regexp.FindAllString Regexp.mail_at page) as [|m mails] eqn:E.
  - rewrite GetMail_no_match by assumption.
    destruct (verbose (flags c)); cbn [complain stderr requests];
      rewrite ?app_nil_r; split; reflexivity.
  - destruct (filter kept (m :: mails)) as [|x l] eqn:Ef.
    + rewrite GetMail_empty_fresh by (rewrite E; (discriminate || assumption)).
      unfold written.
      destruct (printToStdout (flags c)), (file c) as [[]|];
        cbn; rewrite app_nil_r; split; reflexivity.
    + rewrite GetMail_nonempty_fresh by (rewrite E, Ef; discriminate).
      cbn. rewrite app_nil_r. split; reflexivity.
Qed.

Section ScraperFacts.

Variable net : nat -> string -> Response.
Variable c : Crawler.
Variable src : Source.

Lemma visit_malformed (v : string) (rest : list string) (w : World) :
  malformed src v ->
  visit net c src (v :: rest) w = (false, complain ["can't parse"] w).
Proof.
  unfold malformed. intros H. cbn [visit].
  apply Nat.ltb_lt in H. rewrite H. reflexivity.
Qed.

Lemma visit_cons (v : string) (rest : list string) (w : World) :
  ~ malformed src v ->
  visit net c src (v :: rest) w =
  match net (List.length (requests w)) (document_url src v) with
  | GetFails err =>
      (false, complain [err; err] (asked net c (document_url src v) w))
  | ReadFails _ err =>
      (false, complain [err] (asked net c (document_url src v) w))
  | Served body =>
      visit net c src rest
            (run (GetMail c body) (asked net c (document_url src v) w))
  end.
Proof.
  unfold malformed. intros H. cbn [visit].
  apply Nat.nlt_ge, Nat.ltb_ge in H. rewrite H.
  unfold bind. fold (document_url src v). rewrite FetchPage_cases.
  destruct (net (List.length (requests w)) (document_url src v));
    cbn [fst snd]; try reflexivity.
  unfold report, ret. cbn [fst snd]. unfold complain; cbn.
  now rewrite <- app_assoc.
Qed.

(** The loop over a concatenation runs the first part and, if that part
    was exhausted, goes on with the second part in the world it left. *)
Lemma visit_app (pre rest : list string) (w : World) :
  visit net c src (pre ++ rest) w =
  if result (visit net c src pre) w
  then visit net c src rest (run (visit net c src pre) w)
  else visit net c src pre w.
Proof.
  revert w; induction pre as [|v pre IH]; intros w.
  - reflexivity.
  - cbn [app]. destruct (Nat.ltb_spec (List.length (Strings.Split v (separator src)))
                                       (min_parts src)) as [Hm|Hm].
    + unfold result, run. rewrite !visit_malformed by exact Hm. reflexivity.
    + assert (Hw : ~ malformed src v) by (unfold malformed; lia).
      unfold result, run. rewrite !visit_cons by exact Hw.
      destruct (net (List.length (requests w)) (document_url src v));
        try reflexivity.
      apply IH.
Qed.

(** A part of the range that the loop exhausts costs one request per
    fragment, in order, and leaves on standard error nothing but the
    verbose notes of [GetMail]. *)
Lemma visit_exhausted (pre : list string) (w : World) :
  result (visit net c src pre) w = true ->
  requests (run (visit net c src pre) w)
  = (requests w ++ map (document_url src) pre)%list
  /\ exists k,
       stderr (run (visit net c src pre) w)
       = (stderr w ++ repeat "no mail found" k)%list.
Proof.
  revert w; induction pre as [|v pre IH]; intros w.
  - intros _. cbn. rewrite app_nil_r. split; [reflexivity|].
    exists 0. cbn. now rewrite app_nil_r.
  - destruct (Nat.ltb_spec (List.length (Strings.Split v (separator src)))
                           (min_parts src)) as [Hm|Hm].
    + unfold result. rewrite visit_malformed by exact Hm. discriminate.
    + assert (Hw : ~ malformed src v) by (unfold malformed; lia).
      unfold result, run. rewrite visit_cons by exact Hw.
      destruct (net (List.length (requests w)) (document_url src v))
        as [err|b err|body]; try discriminate.
      intros H. destruct (IH _ H) as [Hr [k Hk]].
      destruct (GetMail_fields c body (asked net c (document_url src v) w))
        as [He Hq].
      destruct (asked_fields net c (document_url src v) w)
        as [Ae [_ [Aq _]]].
      unfold run in *. rewrite Hr, Hk, Hq, He, Aq, Ae. split.
      * cbn [map]. now rewrite <- app_assoc.
      * unfold GetMail_diagnostics.
        destruct (Regexp.FindAllString Regexp.mail_at body);
          [destruct (verbose (flags c))|].
        -- exists (S k). now rewrite <- app_assoc.
        -- exists k. now rewrite app_nil_r.
        -- exists k. now rewrite app_nil_r.
Qed.

End ScraperFacts.

(** On the empty body none of the three patterns finds a fragment. *)
Lemma no_fragment_in_empty_body (src : Source) :
  In src sources ->
  Regexp.FindAllString (Regexp.link_at (link_open src) (link_close src)) ""
  = [].
Proof. intros [<-|[<-|[<-|[]]]]; reflexivity. Qed.

(** A scraper whose listing GET fails: both [FetchPage] and the scraper
    report the error, and the search for fragments runs on the empty
    body. *)
Lemma scrape_listing_get_fails (net : nat -> string -> Response)
      (c : Crawler) (src : Source) (w : World) (err : string) :
  In src sources ->
  net (List.length (requests w)) (listing src) = GetFails err ->
  run (scrape net c src) w
  = complain ([err; err]
                ++ if verbose (flags c) then ["no raw link"] else [])
             (asked net c (listing src) w).
Proof.
  intros Hin Hnet. unfold scrape, run, bind.
  rewrite FetchPage_cases, Hnet. cbn [fst snd].
  rewrite (no_fragment_in_empty_body src Hin).
  destruct (verbose (flags c)); unfold report, ret, complain; cbn;
    now rewrite <- !app_assoc.
Qed.

(** C5 as stated fails: when the GET of the listing page fails, standard
    error receives the failure twice, not once. *)
Lemma listing_failure_reported_twice :
  stderr (run (Pastebin (fun _ _ => GetFails "connection refused")
                        (mkCrawler default_flags (Some LogFile)))
              fresh_world)
  = ["connection refused"; "connection refused"]
  /\ List.length
       (stderr (run (Pastebin (fun _ _ => GetFails "connection refused")
                              (mkCrawler default_flags (Some LogFile)))
                    fresh_world))
     <> 1.
Proof. split; [reflexivity | vm_compute; discriminate]. Qed.

(** When it is the reading of the listing body that fails, the scraper
    reports once and scrapes what was read: here one document is
    requested after the failure. *)
Lemma listing_read_failure_still_scraped :
  run (Pastebin (fun n _ =>
                   match n with
                   | 0 => ReadFails (pastebin_fragment "/abc123")
                                    "unexpected EOF"
                   | _ => Served "alice@example.com"
                   end)
                (mkCrawler default_flags (Some LogFile)))
      fresh_world
  = mkWorld "" ["unexpected EOF"] ""
            ["https://pastebin.com/archive";
             "https://pastebin.com/raw/abc123"].
Proof. vm_compute. reflexivity. Qed.

(** C5, amended.  When the GET of the listing page fails, the failure is
    written on standard error twice, once by [FetchPage] and once by the
    scraper; the listing request is the only request of the run, so no
    document is fetched, and the log file is left as it was.  With
    [verbose] off nothing else is written on standard error. *)
Theorem listing_get_failure (net : nat -> string -> Response) (c : Crawler)
        (src : Source) (w : World) (err : string) :
  In src sources ->
  net (List.length (requests w)) (listing src) = GetFails err ->
  requests (run (scrape net c src) w) = (requests w ++ [listing src])%list
  /\ log (run (scrape net c src) w) = log w
  /\ exists more,
       stderr (run (scrape net c src) w)
       = (stderr w ++ [err; err] ++ more)%list
       /\ (verbose (flags c) = false -> more = []).
Proof.
  intros Hin Hnet. rewrite (scrape_listing_get_fails net c src w err Hin Hnet).
  destruct (asked_fields net c (listing src) w) as [Ae [Al [Aq _]]].
  cbn [complain requests log stderr]. rewrite Ae, Al, Aq.
  split; [reflexivity|]. split; [reflexivity|].
  exists (if verbose (flags c) then ["no raw link"] else []). split.
  - reflexivity.
  - now intros ->.
Qed.

Lemma listing_get_failure_witness :
  In slexy_org sources
  /\ (fun (_ : nat) (_ : string) => GetFails "no such host")
       (List.length (requests fresh_world)) (listing slexy_org)
     = GetFails "no such host"
  /\ requests (run (scrape (fun _ _ => GetFails "no such host")
                           (mkCrawler default_flags (Some LogFile))
                           slexy_org) fresh_world)
     = (requests fresh_world ++ [listing slexy_org])%list.
Proof.
  assert (H1 : In slexy_org sources) by (simpl; tauto).
  assert (H2 : (fun (_ : nat) (_ : string) => GetFails "no such host")
                 (List.length (requests fresh_world)) (listing slexy_org)
               = GetFails "no such host") by reflexivity.
  split; [exact H1|]. split; [exact H2|].
  exact (proj1 (listing_get_failure
                  (fun _ _ => GetFails "no such host")
                  (mkCrawler default_flags (Some LogFile))
                  slexy_org fresh_world "no such host" H1 H2)).
Defined.

Lemma Split_length_pos (s sep : string) :
  1 <= List.length (Strings.Split s sep).
Proof. apply Split_nonempty. Qed.

(** Each successful cut adds one part to the result of [Split]. *)
Lemma Split_length_cut (s sep before after : string) :
  sep <> "" ->
  Strings.Cut s sep = Some (before, after) ->
  List.length (Strings.Split s sep)
  = S (List.length (Strings.Split after sep)).
Proof.
  intros Hsep Hcut. pose proof (Cut_shrinks _ _ _ _ Hsep Hcut) as Hlt.
  unfold Strings.Split at 1.
  destruct (length s) as [|n] eqn:E; [lia|].
  cbn [Strings.Split_loop]. rewrite Hcut. cbn [List.length].
  now rewrite Split_loop_fuel by (assumption || lia).
Qed.

(** No fragment that a scraper's own pattern matches is malformed: each
    match starts with the literal text of the pattern, which already holds
    the separators the loop asks for. *)
Lemma matched_fragment_parses (src : Source) (page v : string) :
  In src sources ->
  In v (Regexp.FindAllString
          (Regexp.link_at (link_open src) (link_close src)) page) ->
  ~ malformed src v.
Proof.
  intros Hin Hv. apply find_all_In in Hv as [s' [rest Hv]].
  apply link_at_Some in Hv as [_ [opening [mid [s0 [Ho ->]]]]].
  unfold malformed. apply Nat.le_ngt.
  destruct Hin as [<-|[<-|[<-|[]]]].
  - apply match_open_lit_only in Ho. subst opening.
    generalize (mid ++ link_close pastebin_com). intros tail.
    erewrite Split_length_cut; [|discriminate|reflexivity].
    erewrite Split_length_cut; [|discriminate|reflexivity].
    erewrite Split_length_cut; [|discriminate|reflexivity].
    match goal with
    | |- _ <= S (S (S (List.length ?l))) =>
        assert (Hp : 1 <= List.length l) by apply Split_length_pos;
        revert Hp; generalize (List.length l)
    end.
    cbn [min_parts pastebin_com]. lia.
  - apply match_open_lit in Ho as [m' [s1 [_ [-> _]]]].
    rewrite append_assoc.
    generalize (m' ++ mid ++ link_close paste_debian_net). intros tail.
    erewrite Split_length_cut; [|discriminate|reflexivity].
    match goal with
    | |- _ <= S (List.length ?l) =>
        assert (Hp : 1 <= List.length l) by apply Split_length_pos;
        revert Hp; generalize (List.length l)
    end.
    cbn [min_parts paste_debian_net]. lia.
  - apply match_open_lit_only in Ho. subst opening.
    generalize (mid ++ link_close slexy_org). intros tail.
    erewrite Split_length_cut; [|discriminate|reflexivity].
    match goal with
    | |- _ <= S (List.length ?l) =>
        assert (Hp : 1 <= List.length l) by apply Split_length_pos;
        revert Hp; generalize (List.length l)
    end.
    cbn [min_parts slexy_org]. lia.
Qed.

(** ** A malformed fragment in the loop *)

Section MalformedFacts.

Variable net : nat -> string -> Response.
Variable c : Crawler.
Variable src : Source.




End MalformedFacts.




(** ** Running without a log file *)

Lemma same_console_refl (w : World) : same_console w w.
Proof. repeat split. Qed.

Lemma complain_console (lines : list string) (w w' : World) :
  same_console w w' -> same_console (complain lines w) (complain lines w').
Proof.
  intros [Ho [He Hq]]. unfold same_console, complain; cbn.
  rewrite Ho, He, Hq. auto.
Qed.

Lemma GetMail_console (c c' : Crawler) (page : string) (w w' : World) :
  flags c = flags c' -> same_console w w' ->
  same_console (run (GetMail c page) w) (run (GetMail c' page) w').
Proof.
  intros Hf [Ho [He Hq]]. unfold same_console.
  destruct (Regexp.FindAllString Regexp.mail_at page) as [|m mails] eqn:E.
  - rewrite !GetMail_no_match by assumption. rewrite <- Hf.
    destruct (verbose (flags c)); cbn; rewrite ?Ho, ?He, ?Hq; auto.
  - destruct (filter kept (m :: mails)) as [|x l] eqn:Ef.
    + rewrite !GetMail_empty_fresh
        by (rewrite E; (discriminate || assumption)).
      rewrite <- Hf. unfold written.
      destruct (printToStdout (flags c)), (file c) as [[]|],
        (file c') as [[]|]; cbn; rewrite ?Ho, ?He, ?Hq; auto.
    + rewrite !GetMail_nonempty_fresh by (rewrite E, Ef; discriminate).
      cbn; rewrite ?Ho, ?He, ?Hq; auto.
Qed.

Lemma GetMail_nil_log (c : Crawler) (page : string) (w : World) :
  file c = None -> log (run (GetMail c page) w) = log w.
Proof.
  intros Hn.
  destruct (Regexp.FindAllString Regexp.mail_at page) as [|m mails] eqn:E.
  - rewrite GetMail_no_match by assumption.
    now destruct (verbose (flags c)).
  - destruct (filter kept (m :: mails)) as [|x l] eqn:Ef.
    + rewrite GetMail_empty_fresh
        by (rewrite E; (discriminate || assumption)).
      rewrite Hn. now destruct (printToStdout (flags c)).
    + now rewrite GetMail_nonempty_fresh by (rewrite E, Ef; discriminate).
Qed.

Section NilLogFile.

Variable net : nat -> string -> Response.

Lemma asked_console (c c' : Crawler) (url : string) (w w' : World) :
  flags c = flags c' -> same_console w w' ->
  same_console (asked net c url w) (asked net c' url w')
  /\ log (asked net c url w) = log w.
Proof.
  intros Hf [Ho [He Hq]]. unfold same_console, asked. rewrite <- Hf.
  destruct (verbose (flags c)); cbn; rewrite ?Ho, ?He, ?Hq; auto.
Qed.

Lemma visit_console (c c' : Crawler) (src : Source) (raws : list string)
      (w w' : World) :
  flags c = flags c' -> same_console w w' ->
  same_console (run (visit net c src raws) w) (run (visit net c' src raws) w').
Proof.
  intros Hf. revert w w'; induction raws as [|v raws IH]; intros w w' Hw.
  - exact Hw.
  - destruct (Nat.ltb_spec (List.length (Strings.Split v (separator src)))
                           (min_parts src)) as [Hm|Hm].
    + unfold run. rewrite !visit_malformed by exact Hm.
      now apply complain_console.
    + assert (Hv : ~ malformed src v) by (unfold malformed; lia).
      unfold run. rewrite !visit_cons by exact Hv.
      destruct (asked_console c c' (document_url src v) w w' Hf Hw)
        as [Ha _].
      destruct Hw as [_ [_ Hq]]. rewrite <- Hq.
      destruct (net (List.length (requests w)) (document_url src v)).
      * now apply complain_console.
      * now apply complain_console.
      * apply IH. now apply GetMail_console.
Qed.

Lemma visit_nil_log (c : Crawler) (src : Source) (raws : list string)
      (w : World) :
  file c = None -> log (run (visit net c src raws) w) = log w.
Proof.
  intros Hn. revert w; induction raws as [|v raws IH]; intros w.
  - reflexivity.
  - destruct (Nat.ltb_spec (List.length (Strings.Split v (separator src)))
                           (min_parts src)) as [Hm|Hm].
    + unfold run. now rewrite visit_malformed by exact Hm.
    + assert (Hv : ~ malformed src v) by (unfold malformed; lia).
      unfold run. rewrite visit_cons by exact Hv.
      destruct (asked_console c c (document_url src v) w w eq_refl
                              (same_console_refl w)) as [_ Hl].
      destruct (net (List.length (requests w)) (document_url src v));
        try exact Hl.
      fold (run (visit net c src raws)
                (run (GetMail c body) (asked net c (document_url src v) w))).
      now rewrite IH, GetMail_nil_log.
Qed.

Lemma scrape_run (c : Crawler) (src : Source) (w : World) :
  run (scrape net c src) w =
  let fetched := result (FetchPage net c (listing src)) w in
  let w1 := run (FetchPage net c (listing src)) w in
  let w2 := match snd fetched with
            | Some err => complain [err] w1
            | None => w1
            end in
  match Regexp.FindAllString
          (Regexp.link_at (link_open src) (link_close src)) (fst fetched)
  with
  | [] => if verbose (flags c) then complain ["no raw link"] w2 else w2
  | v :: raws => run (visit net c src (v :: raws)) w2
  end.
Proof.
  unfold scrape, run, result, bind. cbn zeta.
  destruct (snd (fst (FetchPage net c (listing src) w)));
    destruct (Regexp.FindAllString _ _); try reflexivity;
    destruct (verbose (flags c)); reflexivity.
Qed.

Lemma FetchPage_console (c c' : Crawler) (url : string) (w w' : World) :
  flags c = flags c' -> same_console w w' ->
  result (FetchPage net c url) w = result (FetchPage net c' url) w'
  /\ same_console (run (FetchPage net c url) w) (run (FetchPage net c' url) w')
  /\ log (run (FetchPage net c url) w) = log w.
Proof.
  intros Hf Hw. unfold result, run. rewrite !FetchPage_cases.
  destruct (asked_console c c' url w w' Hf Hw) as [Ha Hl].
  destruct Hw as [_ [_ Hq]]. rewrite <- Hq.
  destruct (net (List.length (requests w)) url); cbn [fst snd];
    (split;
     [reflexivity
     |split; [first [exact Ha | now apply complain_console] | exact Hl]]).
Qed.

Lemma scrape_console (c c' : Crawler) (src : Source) (w w' : World) :
  flags c = flags c' -> same_console w w' ->
  same_console (run (scrape net c src) w) (run (scrape net c' src) w').
Proof.
  intros Hf Hw. rewrite !scrape_run. cbn zeta.
  destruct (FetchPage_console c c' (listing src) w w' Hf Hw) as [Hr [Hc _]].
  rewrite <- Hr, <- Hf.
  set (w1 := run (FetchPage net c (listing src)) w) in *.
  set (w1' := run (FetchPage net c' (listing src)) w') in *.
  assert (H2 : same_console
                 match snd (result (FetchPage net c (listing src)) w) with
                 | Some err => complain [err] w1
                 | None => w1
                 end
                 match snd (result (FetchPage net c (listing src)) w) with
                 | Some err => complain [err] w1'
                 | None => w1'
                 end).
  { destruct (snd (result (FetchPage net c (listing src)) w)); [|exact Hc].
    now apply complain_console. }
  destruct (Regexp.FindAllString _ _).
  - destruct (verbose (flags c)); [|exact H2].
    now apply complain_console.
  - now apply visit_console.
Qed.

Lemma scrape_nil_log (c : Crawler) (src : Source) (w : World) :
  file c = None -> log (run (scrape net c src) w) = log w.
Proof.
  intros Hn. rewrite scrape_run. cbn zeta.
  destruct (FetchPage_console c c (listing src) w w eq_refl
                              (same_console_refl w)) as [_ [_ Hl]].
  assert (H2 : log match snd (result (FetchPage net c (listing src)) w) with
                   | Some err =>
                       complain [err] (run (FetchPage net c (listing src)) w)
                   | None => run (FetchPage net c (listing src)) w
                   end = log w).
  { now destruct (snd (result (FetchPage net c (listing src)) w)). }
  destruct (Regexp.FindAllString _ _).
  - now destruct (verbose (flags c)).
  - now rewrite visit_nil_log.
Qed.

(** Every goroutine one iteration of [Run] starts is the scraper of one of
    the three sources. *)
Lemma launched_scrapes (c : Crawler) (task : M unit) :
  In task (launched net c) ->
  exists src, In src sources /\ task = scrape net c src.
Proof.
  unfold launched, sources. rewrite !in_app_iff.
  destruct (pastebin (flags c)), (debian (flags c)), (slexy (flags c));
    cbn [In]; intros H; repeat destruct H as [H|H]; try contradiction;
    subst task;
    first [ exists pastebin_com; split; [cbn; tauto | reflexivity]
          | exists paste_debian_net; split; [cbn; tauto | reflexivity]
          | exists slexy_org; split; [cbn; tauto | reflexivity] ].
Qed.

End NilLogFile.

(** C10.  When [os.OpenFile] fails, [init] writes the error on standard
    error and still returns a crawler, whose file handle is nil.  With
    that crawler every [WriteString] returns an error and leaves the world
    as it was, so the log file never changes; and [GetMail] and every
    source scraper print, report and request exactly what they would with
    an open log file. *)
Theorem open_failure_runs_without_log (parsed : Flags) (err : string)
        (w : World) :
  result (init parsed (Some err)) w = mkCrawler parsed None
  /\ run (init parsed (Some err)) w = complain [err] w
  /\ (forall s w',
        WriteString (file (result (init parsed (Some err)) w)) s w'
        = (Some ErrInvalid, w'))
  /\ (forall page w',
        log (run (GetMail (mkCrawler parsed None) page) w') = log w'
        /\ same_console
             (run (GetMail (mkCrawler parsed None) page) w')
             (run (GetMail (mkCrawler parsed (Some LogFile)) page) w'))
  /\ (forall net src w',
        log (run (scrape net (mkCrawler parsed None) src) w') = log w'
        /\ same_console
             (run (scrape net (mkCrawler parsed None) src) w')
             (run (scrape net (mkCrawler parsed (Some LogFile)) src) w')).
Proof.
  split; [reflexivity|]. split; [reflexivity|]. split; [reflexivity|].
  split.
  - intros page w'. split.
    + now apply GetMail_nil_log.
    + apply GetMail_console; [reflexivity | apply same_console_refl].
  - intros net src w'. split.
    + now apply scrape_nil_log.
    + apply scrape_console; [reflexivity | apply same_console_refl].
Qed.

(** * Further properties of the code *)

(** ** FreshFilter as a filter *)

Lemma filter_echo_app (a b : list string) :
  filter_echo (a ++ b) = filter_echo a ++ filter_echo b.
Proof.
  induction a as [|m a IH]; cbn [app filter_echo]; [reflexivity|].
  now rewrite IH, append_assoc.
Qed.

(** X1.  Filtering a concatenation is filtering the two parts one after the
    other: the survivors are the survivors of the first part followed by
    those of the second, and the world is the one the second filtering
    leaves when started where the first one stopped. *)
Theorem FreshFilter_concatenation (a b : list string) (w : World) :
  result (FreshFilter (a ++ b)) w
  = (result (FreshFilter a) w
     ++ result (FreshFilter b) (run (FreshFilter a) w))%list
  /\ run (FreshFilter (a ++ b)) w
     = run (FreshFilter b) (run (FreshFilter a) w).
Proof.
  rewrite !FreshFilter_result, !FreshFilter_run, filter_app, filter_echo_app.
  now rewrite say_say.
Qed.

Lemma filter_echo_kept (mails : list string) :
  filter_echo (filter kept mails) = "".
Proof.
  induction mails as [|m mails IH]; cbn [filter filter_echo]; [reflexivity|].
  destruct (kept m) eqn:E; [|exact IH].
  cbn [filter_echo]. rewrite IH, blacklist_echo_listed.
  unfold kept in E. apply andb_true_iff in E as [-> E].
  apply negb_true_iff in E. now rewrite E.
Qed.

Lemma filter_idempotent {A : Type} (f : A -> bool) (l : list A) :
  filter f (filter f l) = filter f l.
Proof.
  induction l as [|x l IH]; cbn [filter]; [reflexivity|].
  destruct (f x) eqn:E; [|exact IH]. cbn [filter]. now rewrite E, IH.
Qed.

(** X2.  Filtering what [FreshFilter] returned returns it again, whatever
    the world, and prints nothing: the second pass leaves the world as it
    found it. *)
Theorem FreshFilter_idempotent (mails : list string) (w w' : World) :
  result (FreshFilter (result (FreshFilter mails) w)) w'
  = result (FreshFilter mails) w
  /\ run (FreshFilter (result (FreshFilter mails) w)) w' = w'.
Proof.
  rewrite !FreshFilter_result, FreshFilter_run, filter_idempotent.
  now rewrite filter_echo_kept, say_nil.
Qed.

Lemma well_shaped_listed (mail : string) :
  well_shaped mail && listed blacklist mail
  = ("formorer@debian.org" =? mail)%string.
Proof.
  unfold listed, blacklist. cbn [existsb].
  destruct (String.eqb_spec mail "formorer@debian.org") as [->|H1].
  - reflexivity.
  - destruct (String.eqb_spec mail "user@user") as [->|H2].
    + reflexivity.
    + rewrite andb_false_r. symmetry. apply String.eqb_neq. congruence.
Qed.

Lemma filter_filter {A : Type} (f g : A -> bool) (l : list A) :
  filter g (filter f l) = filter (fun x => f x && g x) l.
Proof.
  induction l as [|x l IH]; cbn [filter]; [reflexivity|].
  destruct (f x); cbn [filter andb]; [|exact IH].
  destruct (g x); now rewrite IH.
Qed.

(** X3.  [FreshFilter] changes nothing in the world but standard output,
    and what it prints is one line, the address twice, for every
    occurrence of [formorer@debian.org] among the candidates.  The other
    blacklist entry, [user@user], has no dot and is turned away before the
    blacklist is read, so it never prints. *)
Theorem FreshFilter_console (mails : list string) (w : World) :
  run (FreshFilter mails) w
  = say (echo_lines (filter (String.eqb "formorer@debian.org") mails)) w
  /\ stderr (run (FreshFilter mails) w) = stderr w
  /\ log (run (FreshFilter mails) w) = log w
  /\ requests (run (FreshFilter mails) w) = requests w.
Proof.
  rewrite FreshFilter_run, filter_echo_lines, filter_filter.
  rewrite (filter_ext _ _ well_shaped_listed).
  repeat split.
Qed.

(** ** What extraction returns *)

Lemma span_all (p : ascii -> bool) (s : string) :
  all p (fst (Regexp.span p s)) = true.
Proof.
  induction s as [|c s IH]; cbn [Regexp.span]; [reflexivity|].
  destruct (p c) eqn:E; [|reflexivity].
  destruct (Regexp.span p s) as [run rest]. cbn [fst all] in *.
  now rewrite E, IH.
Qed.

Lemma mail_at_shape (s m rest : string) :
  Regexp.mail_at s = Some (m, rest) -> mail_shaped m.
Proof.
  unfold Regexp.mail_at.
  pose proof (span_all Regexp.is_word s) as H1.
  destruct (Regexp.span Regexp.is_word s) as [local r1]; cbn [fst] in H1.
  destruct local as [|a local]; [discriminate|].
  destruct r1 as [|c r2]; [discriminate|].
  destruct (Ascii.eqb_spec c "@") as [->|]; [|discriminate].
  pose proof (span_all Regexp.is_word_or_dot r2) as H2.
  destruct (Regexp.span Regexp.is_word_or_dot r2) as [domain r3];
    cbn [fst] in H2.
  destruct domain as [|d domain]; [discriminate|].
  intros H; injection H as <- _.
  exists (String a local), (String d domain).
  repeat split; (assumption || discriminate).
Qed.

(** Every match was found at the head of some suffix of the text. *)
Lemma find_all_In_suffix (at_head : string -> option (string * string)) :
  (forall s m rest, at_head s = Some (m, rest) -> s = m ++ rest) ->
  forall fuel s v,
    In v (Regexp.find_all at_head fuel s) ->
    exists before rest, s = before ++ v ++ rest.
Proof.
  intros Hp. induction fuel as [|fuel IH]; intros s v;
    cbn [Regexp.find_all].
  - intros [].
  - destruct (at_head s) as [[m rest]|] eqn:E.
    + apply Hp in E. intros [<- | H].
      * now exists "", rest.
      * destruct (IH rest v H) as [before [rest' Hr]].
        exists (m ++ before), rest'. now rewrite E, Hr, append_assoc.
    + destruct s as [|c s]; [intros []|]. intros H.
      destruct (IH s v H) as [before [rest' Hr]].
      exists (String c before), rest'. now rewrite Hr.
Qed.

Lemma mail_candidate_shaped (page m : string) :
  In m (Regexp.FindAllString Regexp.mail_at page) -> mail_shaped m.
Proof.
  intros H. apply find_all_In in H as [s' [rest H]].
  now apply mail_at_shape in H.
Qed.

Lemma mail_candidate_occurs (page m : string) :
  In m (Regexp.FindAllString Regexp.mail_at page) -> occurs_in m page.
Proof.
  unfold occurs_in. apply find_all_In_suffix.
  intros s m' rest H. now apply mail_at_Some in H.
Qed.

(** X4.  Every candidate that extraction returns occurs in the page and
    has the shape of the pattern: a non-empty run of word characters, an
    at-sign, and a non-empty run of word characters and dots. *)
Theorem extracted_candidate_shape (page m : string) :
  In m (Regexp.FindAllString Regexp.mail_at page) ->
  mail_shaped m /\ occurs_in m page.
Proof.
  intros H. split.
  - now apply (mail_candidate_shaped page).
  - now apply mail_candidate_occurs.
Qed.

Lemma extracted_candidate_shape_witness :
  In "bob@mail.example.org"
     (Regexp.FindAllString Regexp.mail_at
        "write to <bob@mail.example.org>, not to me")
  /\ mail_shaped "bob@mail.example.org"
  /\ occurs_in "bob@mail.example.org"
               "write to <bob@mail.example.org>, not to me".
Proof.
  assert (H : In "bob@mail.example.org"
                 (Regexp.FindAllString Regexp.mail_at
                    "write to <bob@mail.example.org>, not to me"))
    by (vm_compute; tauto).
  split; [exact H|].
  exact (extracted_candidate_shape
           "write to <bob@mail.example.org>, not to me"
           "bob@mail.example.org" H).
Defined.

Lemma occurs_in_trans (a b c : string) :
  occurs_in a b -> occurs_in b c -> occurs_in a c.
Proof.
  intros [l1 [r1 ->]] [l2 [r2 ->]]. exists (l2 ++ l1), (r1 ++ r2).
  now rewrite !append_assoc.
Qed.

Lemma no_at_no_candidate (page : string) :
  Strings.Contains page "@" = false ->
  Regexp.FindAllString Regexp.mail_at page = [].
Proof.
  intros H. destruct (Regexp.FindAllString Regexp.mail_at page) as [|m l] eqn:E;
    [reflexivity|].
  assert (Hin : In m (Regexp.FindAllString Regexp.mail_at page))
    by (rewrite E; now left).
  pose proof (mail_candidate_occurs page m Hin) as Ho.
  apply mail_candidate_shaped in Hin as [local [domain [-> _]]].
  apply Contains_false in H. elim H.
  apply (occurs_in_trans _ _ _ (ex_intro _ local (ex_intro _ domain eq_refl)) Ho).
Qed.

(** X5.  On a page without an at-sign extraction finds nothing, and
    [GetMail] does nothing at all unless [verbose] is set, in which case
    its only effect is the one line [no mail found] on standard error. *)
Theorem GetMail_without_at_sign (c : Crawler) (page : string) (w : World) :
  Strings.Contains page "@" = false ->
  Regexp.FindAllString Regexp.mail_at page = []
  /\ run (GetMail c page) w
     = if verbose (flags c) then complain ["no mail found"] w else w.
Proof.
  intros H. apply no_at_no_candidate in H. split; [exact H|].
  now apply GetMail_no_match.
Qed.

Lemma GetMail_without_at_sign_witness :
  Strings.Contains "nothing to see here" "@" = false
  /\ run (GetMail (mkCrawler default_flags (Some LogFile))
                  "nothing to see here") fresh_world
     = fresh_world.
Proof.
  assert (H : Strings.Contains "nothing to see here" "@" = false)
    by reflexivity.
  split; [exact H|].
  exact (proj2 (GetMail_without_at_sign
                  (mkCrawler default_flags (Some LogFile))
                  "nothing to see here" fresh_world H)).
Defined.

(** ** What survives extraction and filtering *)

Lemma Contains_char_app (a b : string) (c : ascii) :
  Strings.Contains (a ++ b) (String c "")
  = Strings.Contains a (String c "") || Strings.Contains b (String c "").
Proof.
  induction a as [|x a IH].
  - cbn [String.append Strings.Contains Strings.HasPrefix orb]. reflexivity.
  - cbn [String.append Strings.Contains Strings.HasPrefix].
    rewrite IH. now rewrite orb_assoc.
Qed.

Lemma word_run_has_no_dot (s : string) :
  all Regexp.is_word s = true -> Strings.Contains s "." = false.
Proof.
  induction s as [|x s IH]; [reflexivity|].
  cbn [all]. intros H. apply andb_true_iff in H as [Hx Hs].
  cbn [Strings.Contains Strings.HasPrefix]. rewrite (IH Hs).
  destruct (Ascii.eqb_spec "." x) as [<-|_]; [discriminate Hx | reflexivity].
Qed.

(** X6.  Every address that comes out of extraction followed by the filter
    is a non-empty run of word characters, an at-sign, and a run of word
    characters and dots that contains a dot and does not begin with
    one. *)
Theorem fresh_address_shape (page m : string) (w : World) :
  In m (result (FreshFilter (Regexp.FindAllString Regexp.mail_at page)) w) ->
  exists local domain,
    m = local ++ "@" ++ domain
    /\ local <> ""
    /\ all Regexp.is_word local = true
    /\ all Regexp.is_word_or_dot domain = true
    /\ occurs_in "." domain
    /\ Strings.HasPrefix domain "." = false.
Proof.
  rewrite FreshFilter_result, filter_In. intros [Hin Hk].
  apply mail_candidate_shaped in Hin
    as [local [domain [-> [Hl [_ [Hw Hd]]]]]].
  exists local, domain. repeat split; try assumption.
  - unfold kept, well_shaped in Hk.
    repeat (apply andb_true_iff in Hk as [Hk ?]).
    match goal with
    | H : Strings.Contains _ "." = true |- _ => rename H into Hdot
    end.
    rewrite Contains_char_app, (word_run_has_no_dot _ Hw) in Hdot.
    cbn [orb String.append Strings.Contains Strings.HasPrefix] in Hdot.
    cbn in Hdot. now apply Contains_spec.
  - destruct (Strings.HasPrefix domain ".") eqn:E; [|reflexivity].
    apply HasPrefix_spec in E as [r ->].
    unfold kept, well_shaped in Hk.
    repeat (apply andb_true_iff in Hk as [Hk ?]).
    match goal with
    | H : negb (Strings.Contains _ "@.") = true |- _ =>
        apply negb_true_iff, Contains_false in H; elim H
    end.
    now exists local, r.
Qed.

Lemma fresh_address_shape_witness :
  In "png@site.x"
     (result (FreshFilter
                (Regexp.FindAllString Regexp.mail_at
                   "see logo.png@site.x or x@.y")) fresh_world)
  /\ exists local domain,
       "png@site.x" = local ++ "@" ++ domain
       /\ local <> ""
       /\ all Regexp.is_word local = true
       /\ all Regexp.is_word_or_dot domain = true
       /\ occurs_in "." domain
       /\ Strings.HasPrefix domain "." = false.
Proof.
  assert (H : In "png@site.x"
                 (result (FreshFilter
                            (Regexp.FindAllString Regexp.mail_at
                               "see logo.png@site.x or x@.y")) fresh_world))
    by (vm_compute; tauto).
  split; [exact H|].
  exact (fresh_address_shape "see logo.png@site.x or x@.y" "png@site.x"
                             fresh_world H).
Defined.

(** ** GetMail and the log file *)

(** X7.  Whatever the page, [GetMail] either leaves the log file as it was
    or appends a single newline to it, never an address.  The newline is
    appended exactly when the file handle is not nil, extraction found
    candidates and the filter turned every one of them away. *)
Theorem GetMail_log (c : Crawler) (page : string) (w : World) :
  (log (run (GetMail c page) w) = log w ++ NL
   /\ file c = Some LogFile
   /\ Regexp.FindAllString Regexp.mail_at page <> []
   /\ result (FreshFilter (Regexp.FindAllString Regexp.mail_at page)) w = [])
  \/ (log (run (GetMail c page) w) = log w
      /\ (file c = None
          \/ Regexp.FindAllString Regexp.mail_at page = []
          \/ result (FreshFilter (Regexp.FindAllString Regexp.mail_at page)) w
             <> [])).
Proof.
  rewrite FreshFilter_result.
  destruct (Regexp.FindAllString Regexp.mail_at page) as [|m mails] eqn:E.
  - right. rewrite GetMail_no_match by assumption.
    split; [now destruct (verbose (flags c)) | tauto].
  - destruct (filter kept (m :: mails)) as [|x l] eqn:Ef.
    + rewrite GetMail_empty_fresh
        by (rewrite E; (discriminate || assumption)).
      unfold written. destruct (file c) as [[]|].
      * left. repeat split; try discriminate.
        now destruct (printToStdout (flags c)).
      * right. split; [now destruct (printToStdout (flags c)) | tauto].
    + right. rewrite GetMail_nonempty_fresh by (rewrite E, Ef; discriminate).
      split; [reflexivity|]. right. right. discriminate.
Qed.

(** ** One round of a source scraper *)

Section RoundFacts.

Variable net : nat -> string -> Response.
Variable c : Crawler.
Variable src : Source.

Lemma visit_all_served (raws : list string) :
  (forall n url, exists body, net n url = Served body) ->
  Forall (fun v => ~ malformed src v) raws ->
  forall w, result (visit net c src raws) w = true.
Proof.
  intros Hnet Hall. induction Hall as [|v raws Hv _ IH]; intros w.
  - reflexivity.
  - unfold result. rewrite visit_cons by exact Hv.
    destruct (Hnet (List.length (requests w)) (document_url src v))
      as [body ->].
    apply IH.
Qed.

Lemma visit_quiet (raws : list string) (w : World) :
  verbose (flags c) = false ->
  result (visit net c src raws) w = true ->
  stderr (run (visit net c src raws) w) = stderr w.
Proof.
  intros Hv. revert w; induction raws as [|v raws IH]; intros w.
  - reflexivity.
  - destruct (Nat.ltb_spec (List.length (Strings.Split v (separator src)))
                           (min_parts src)) as [Hm|Hm].
    + unfold result. rewrite visit_malformed by exact Hm. discriminate.
    + assert (Hw : ~ malformed src v) by (unfold malformed; lia).
      unfold result, run. rewrite visit_cons by exact Hw.
      destruct (net (List.length (requests w)) (document_url src v))
        as [err|b err|body]; try discriminate.
      intros H. pose proof (IH _ H) as Hi.
      destruct (GetMail_fields c body (asked net c (document_url src v) w))
        as [He _].
      destruct (asked_fields net c (document_url src v) w) as [Ae _].
      unfold run in *. rewrite Hi, He, Ae. unfold GetMail_diagnostics.
      rewrite Hv. destruct (Regexp.FindAllString Regexp.mail_at body);
        apply app_nil_r.
Qed.

Lemma GetMail_log_step (body : string) (w : World) :
  exists k, k <= 1 /\ log (run (GetMail c body) w) = log w ++ newlines k.
Proof.
  destruct (Regexp.FindAllString Regexp.mail_at body) as [|m mails] eqn:E.
  - exists 0. split; [lia|]. rewrite GetMail_no_match by assumption.
    cbn [newlines]. rewrite append_nil_r.
    now destruct (verbose (flags c)).
  - destruct (filter kept (m :: mails)) as [|x l] eqn:Ef.
    + rewrite GetMail_empty_fresh
        by (rewrite E; (discriminate || assumption)).
      unfold written. destruct (file c) as [[]|].
      * exists 1. split; [lia|]. now destruct (printToStdout (flags c)).
      * exists 0. split; [lia|]. cbn [newlines]. rewrite append_nil_r.
        now destruct (printToStdout (flags c)).
    + exists 0. split; [lia|].
      rewrite GetMail_nonempty_fresh by (rewrite E, Ef; discriminate).
      cbn [newlines say log]. now rewrite append_nil_r.
Qed.

Lemma visit_log (raws : list string) (w : World) :
  exists k, k <= List.length raws
            /\ log (run (visit net c src raws) w) = log w ++ newlines k.
Proof.
  revert w; induction raws as [|v raws IH]; intros w.
  - exists 0. split; [lia|]. cbn. now rewrite append_nil_r.
  - destruct (Nat.ltb_spec (List.length (Strings.Split v (separator src)))
                           (min_parts src)) as [Hm|Hm].
    + exists 0. split; [lia|]. unfold run.
      rewrite visit_malformed by exact Hm. cbn. now rewrite append_nil_r.
    + assert (Hw : ~ malformed src v) by (unfold malformed; lia).
      unfold run. rewrite visit_cons by exact Hw.
      destruct (asked_fields net c (document_url src v) w) as [_ [Al _]].
      destruct (net (List.length (requests w)) (document_url src v))
        as [err|b err|body].
      * exists 0. split; [lia|]. cbn [snd complain log newlines].
        now rewrite Al, append_nil_r.
      * exists 0. split; [lia|]. cbn [snd complain log newlines].
        now rewrite Al, append_nil_r.
      * destruct (IH (run (GetMail c body)
                          (asked net c (document_url src v) w)))
          as [k [Hk Hl]].
        destruct (GetMail_log_step body (asked net c (document_url src v) w))
          as [j [Hj Hg]].
        unfold run in *. rewrite Hl, Hg, Al.
        exists (j + k). split; [cbn; lia|].
        rewrite append_assoc. f_equal.
        destruct j as [|[|j]]; [reflexivity | reflexivity | lia].
Qed.

Lemma visit_requests (raws : list string) (w : World) :
  exists k, k <= List.length raws
            /\ requests (run (visit net c src raws) w)
               = (requests w ++ map (document_url src) (firstn k raws))%list.
Proof.
  revert w; induction raws as [|v raws IH]; intros w.
  - exists 0. split; [lia|]. cbn. now rewrite app_nil_r.
  - destruct (Nat.ltb_spec (List.length (Strings.Split v (separator src)))
                           (min_parts src)) as [Hm|Hm].
    + exists 0. split; [lia|]. unfold run.
      rewrite visit_malformed by exact Hm. cbn. now rewrite app_nil_r.
    + assert (Hw : ~ malformed src v) by (unfold malformed; lia).
      unfold run. rewrite visit_cons by exact Hw.
      destruct (asked_fields net c (document_url src v) w)
        as [_ [_ [Aq _]]].
      destruct (net (List.length (requests w)) (document_url src v))
        as [err|b err|body].
      * exists 1. split; [cbn; lia|].
        cbn [snd complain requests firstn map]. exact Aq.
      * exists 1. split; [cbn; lia|].
        cbn [snd complain requests firstn map]. exact Aq.
      * destruct (IH (run (GetMail c body)
                          (asked net c (document_url src v) w)))
          as [k [Hk Hq]].
        exists (S k). split; [cbn; lia|].
        destruct (GetMail_fields c body (asked net c (document_url src v) w))
          as [_ Hg].
        unfold run in *. rewrite Hq, Hg, Aq. cbn [firstn map].
        now rewrite <- app_assoc.
Qed.

End RoundFacts.

(** X9.  Once the loop has dealt with the fragments before a well-formed
    fragment [v], the outcome of the request for the document of [v]
    decides the rest of the round.  A failed GET puts the error on
    standard error twice and ends the round; a failed read of the body
    puts it there once and ends the round; in both cases nothing after
    [v] is looked at.  A served document goes to [GetMail] and the loop
    carries on with the fragments after [v]. *)
Theorem document_fetch_outcome (net : nat -> string -> Response)
        (c : Crawler) (src : Source) (pre : list string) (v : string)
        (post : list string) (w : World) :
  result (visit net c src pre) w = true ->
  ~ malformed src v ->
  visit net c src (pre ++ v :: post) w =
  match net (List.length (requests w) + List.length pre)
            (document_url src v) with
  | GetFails err =>
      (false,
       complain [err; err]
         (asked net c (document_url src v) (run (visit net c src pre) w)))
  | ReadFails _ err =>
      (false,
       complain [err]
         (asked net c (document_url src v) (run (visit net c src pre) w)))
  | Served body =>
      visit net c src post
        (run (GetMail c body)
           (asked net c (document_url src v) (run (visit net c src pre) w)))
  end.
Proof.
  intros Hpre Hv. rewrite visit_app, Hpre, visit_cons by exact Hv.
  destruct (visit_exhausted net c src pre w Hpre) as [Hq _].
  now rewrite Hq, length_app, length_map.
Qed.

Lemma document_fetch_outcome_witness :
  result (visit (fun n _ => match n with
                            | 1 => GetFails "timeout"
                            | _ => Served "bob@example.org"
                            end)
                (mkCrawler default_flags (Some LogFile)) pastebin_com
                [pastebin_fragment "/a1"]) fresh_world = true
  /\ ~ malformed pastebin_com (pastebin_fragment "/b2")
  /\ run (visit (fun n _ => match n with
                            | 1 => GetFails "timeout"
                            | _ => Served "bob@example.org"
                            end)
                (mkCrawler default_flags (Some LogFile)) pastebin_com
                ([pastebin_fragment "/a1"]
                 ++ pastebin_fragment "/b2" :: [pastebin_fragment "/c3"]))
         fresh_world
     = mkWorld "" ["timeout"; "timeout"] ""
               ["https://pastebin.com/raw/a1"; "https://pastebin.com/raw/b2"].
Proof.
  assert (H1 : result (visit (fun n _ => match n with
                                         | 1 => GetFails "timeout"
                                         | _ => Served "bob@example.org"
                                         end)
                             (mkCrawler default_flags (Some LogFile))
                             pastebin_com
                             [pastebin_fragment "/a1"]) fresh_world = true)
    by (vm_compute; reflexivity).
  assert (H2 : ~ malformed pastebin_com (pastebin_fragment "/b2"))
    by (unfold malformed; vm_compute; lia).
  split; [exact H1|]. split; [exact H2|].
  unfold run.
  rewrite (document_fetch_outcome
             (fun n _ => match n with
                         | 1 => GetFails "timeout"
                         | _ => Served "bob@example.org"
                         end)
             (mkCrawler default_flags (Some LogFile)) pastebin_com
             [pastebin_fragment "/a1"] (pastebin_fragment "/b2")
             [pastebin_fragment "/c3"] fresh_world H1 H2).
  vm_compute. reflexivity.
Defined.

(** X10.  When the listing page is served and holds no fragment, the
    scraper makes no request beyond the one for the listing, leaves the
    log file and standard output to what [FetchPage] did, and writes on
    standard error the single line [no raw link] when [verbose] is set
    and nothing when it is not. *)
Theorem empty_round (net : nat -> string -> Response) (c : Crawler)
        (src : Source) (body : string) (w : World) :
  net (List.length (requests w)) (listing src) = Served body ->
  fragments src body = [] ->
  run (scrape net c src) w
  = (if verbose (flags c)
     then complain ["no raw link"] (asked net c (listing src) w)
     else asked net c (listing src) w)
  /\ requests (run (scrape net c src) w) = (requests w ++ [listing src])%list.
Proof.
  unfold fragments. intros Hnet Hf.
  assert (E : run (scrape net c src) w
              = if verbose (flags c)
                then complain ["no raw link"] (asked net c (listing src) w)
                else asked net c (listing src) w).
  { rewrite scrape_run. cbn zeta. unfold result, run.
    rewrite FetchPage_cases, Hnet. cbn [fst snd]. rewrite Hf. reflexivity. }
  split; [exact E|]. rewrite E.
  destruct (asked_fields net c (listing src) w) as [_ [_ [Aq _]]].
  now destruct (verbose (flags c)).
Qed.

Lemma empty_round_witness :
  (fun (_ : nat) (_ : string) => Served "<html>maintenance</html>")
    (List.length (requests fresh_world)) (listing paste_debian_net)
  = Served "<html>maintenance</html>"
  /\ fragments paste_debian_net "<html>maintenance</html>" = []
  /\ requests (run (scrape (fun _ _ => Served "<html>maintenance</html>")
                           (mkCrawler default_flags (Some LogFile))
                           paste_debian_net) fresh_world)
     = (requests fresh_world ++ [listing paste_debian_net])%list.
Proof.
  assert (H1 : (fun (_ : nat) (_ : string) =>
                  Served "<html>maintenance</html>")
                 (List.length (requests fresh_world))
                 (listing paste_debian_net)
               = Served "<html>maintenance</html>") by reflexivity.
  assert (H2 : fragments paste_debian_net "<html>maintenance</html>" = [])
    by reflexivity.
  split; [exact H1|]. split; [exact H2|].
  exact (proj2 (empty_round (fun _ _ => Served "<html>maintenance</html>")
                            (mkCrawler default_flags (Some LogFile))
                            paste_debian_net "<html>maintenance</html>"
                            fresh_world H1 H2)).
Defined.

Lemma fragments_parse (src : Source) (body : string) :
  In src sources ->
  Forall (fun v => ~ malformed src v) (fragments src body).
Proof.
  intros Hin. apply Forall_forall. intros v Hv.
  now apply (matched_fragment_parses src body v).
Qed.

(** X11.  When every request is served, a scraper of one of the three
    sources requests the listing and then the document of every fragment
    of the listing, in the order of the listing; with [verbose] off it
    writes nothing on standard error. *)
Theorem served_round (net : nat -> string -> Response) (c : Crawler)
        (src : Source) (body : string) (w : World) :
  In src sources ->
  (forall n url, exists page, net n url = Served page) ->
  net (List.length (requests w)) (listing src) = Served body ->
  requests (run (scrape net c src) w)
  = (requests w
     ++ listing src :: map (document_url src) (fragments src body))%list
  /\ (verbose (flags c) = false ->
      stderr (run (scrape net c src) w) = stderr w).
Proof.
  intros Hin Hall Hnet.
  pose proof (fragments_parse src body Hin) as Hp.
  destruct (asked_fields net c (listing src) w) as [Ae [_ [Aq _]]].
  assert (Hr : result (FetchPage net c (listing src)) w = (body, None))
    by (unfold result; now rewrite FetchPage_cases, Hnet).
  assert (Hw : run (FetchPage net c (listing src)) w
               = asked net c (listing src) w)
    by (unfold run; now rewrite FetchPage_cases, Hnet).
  rewrite scrape_run. cbn zeta. rewrite Hr, Hw. cbn [fst snd].
  unfold fragments in *.
  destruct (Regexp.FindAllString _ body) as [|v raws] eqn:E.
  - split.
    + destruct (verbose (flags c)); cbn [complain requests map];
        exact Aq.
    + intros ->. exact Ae.
  - pose proof (visit_all_served net c src (v :: raws) Hall Hp
                                 (asked net c (listing src) w)) as Ht.
    split.
    + destruct (visit_exhausted net c src (v :: raws) _ Ht) as [Hq _].
      rewrite Hq, Aq. now rewrite <- app_assoc.
    + intros Hv. now rewrite visit_quiet.
Qed.

Lemma served_round_witness :
  In slexy_org sources
  /\ (forall (n : nat) (url : string),
        exists page,
          (fun (_ : nat) (u : string) =>
             if (u =? "http://slexy.org/recent")%string
             then Served ("<a href=" ++ DQ ++ "/view/s2Ab" ++ DQ ++ ">")
             else Served "carol@example.net") n url = Served page)
  /\ requests
       (run (scrape
               (fun (_ : nat) (u : string) =>
                  if (u =? "http://slexy.org/recent")%string
                  then Served ("<a href=" ++ DQ ++ "/view/s2Ab" ++ DQ ++ ">")
                  else Served "carol@example.net")
               (mkCrawler default_flags (Some LogFile)) slexy_org)
            fresh_world)
     = ["http://slexy.org/recent"; "http://slexy.org/raw/s2Ab"].
Proof.
  assert (H1 : In slexy_org sources) by (simpl; tauto).
  assert (H2 : forall (n : nat) (url : string),
             exists page,
               (fun (_ : nat) (u : string) =>
                  if (u =? "http://slexy.org/recent")%string
                  then Served ("<a href=" ++ DQ ++ "/view/s2Ab" ++ DQ ++ ">")
                  else Served "carol@example.net") n url = Served page).
  { intros n url. cbv beta.
    destruct (url =? "http://slexy.org/recent")%string; eexists; reflexivity. }
  split; [exact H1|]. split; [exact H2|].
  exact (proj1 (served_round _ (mkCrawler default_flags (Some LogFile))
                             slexy_org
                             ("<a href=" ++ DQ ++ "/view/s2Ab" ++ DQ ++ ">")
                             fresh_world H1 H2 eq_refl)).
Defined.

(** X12.  A fragment that the pattern of one of the three scrapers
    matches always splits into as many parts as the loop asks for: the
    pattern's own literal text holds the separators.  So in a scraper run
    the branch that reports [can't parse] is never taken. *)
Theorem scraper_fragments_parse (src : Source) (body v : string) :
  In src sources ->
  In v (fragments src body) ->
  min_parts src <= List.length (Strings.Split v (separator src)).
Proof.
  intros Hin Hv. apply Nat.nlt_ge.
  exact (matched_fragment_parses src body v Hin Hv).
Qed.

Lemma scraper_fragments_parse_witness :
  In pastebin_com sources
  /\ In (pastebin_fragment "/abc123")
        (fragments pastebin_com
           ("<td>" ++ pastebin_fragment "/abc123" ++ "</td>"))
  /\ min_parts pastebin_com
     <= List.length (Strings.Split (pastebin_fragment "/abc123")
                                   (separator pastebin_com)).
Proof.
  assert (H1 : In pastebin_com sources) by (simpl; tauto).
  assert (H2 : In (pastebin_fragment "/abc123")
                  (fragments pastebin_com
                     ("<td>" ++ pastebin_fragment "/abc123" ++ "</td>")))
    by (vm_compute; tauto).
  split; [exact H1|]. split; [exact H2|].
  exact (scraper_fragments_parse pastebin_com _ _ H1 H2).
Defined.

(** X13.  A scraper run only ever appends newline bytes to the log file:
    what was in the file stays in front, and no address is written
    behind it. *)
Theorem scrape_log_newlines (net : nat -> string -> Response) (c : Crawler)
        (src : Source) (w : World) :
  exists k, log (run (scrape net c src) w) = log w ++ newlines k.
Proof.
  rewrite scrape_run. cbn zeta.
  destruct (FetchPage_console net c c (listing src) w w eq_refl
                              (same_console_refl w)) as [_ [_ Hl]].
  set (w2 := match snd (result (FetchPage net c (listing src)) w) with
             | Some err =>
                 complain [err] (run (FetchPage net c (listing src)) w)
             | None => run (FetchPage net c (listing src)) w
             end).
  assert (H2 : log w2 = log w).
  { unfold w2. now destruct (snd (result (FetchPage net c (listing src)) w)). }
  destruct (Regexp.FindAllString _ _) as [|v raws].
  - exists 0. cbn [newlines]. rewrite append_nil_r.
    now destruct (verbose (flags c)).
  - destruct (visit_log net c src (v :: raws) w2) as [k [_ Hk]].
    exists k. now rewrite Hk, H2.
Qed.

(** X14.  The requests of a scraper run are the request for the listing
    followed by the requests for the documents of the first [k]
    fragments of the listing, in their order, for some [k]: documents are
    fetched one after the other in listing order, none is fetched twice
    and none is skipped before the round ends. *)
Theorem scrape_requests_in_order (net : nat -> string -> Response)
        (c : Crawler) (src : Source) (w : World) :
  exists k,
    requests (run (scrape net c src) w)
    = (requests w
       ++ listing src
          :: map (document_url src)
                 (firstn k (fragments src
                              (fst (result (FetchPage net c (listing src))
                                           w)))))%list.
Proof.
  rewrite scrape_run. cbn zeta. unfold fragments.
  assert (Hq : requests (run (FetchPage net c (listing src)) w)
               = (requests w ++ [listing src])%list).
  { unfold run. rewrite FetchPage_cases.
    destruct (asked_fields net c (listing src) w) as [_ [_ [Aq _]]].
    now destruct (net (List.length (requests w)) (listing src)). }
  set (w2 := match snd (result (FetchPage net c (listing src)) w) with
             | Some err =>
                 complain [err] (run (FetchPage net c (listing src)) w)
             | None => run (FetchPage net c (listing src)) w
             end).
  assert (H2 : requests w2 = (requests w ++ [listing src])%list).
  { unfold w2. now destruct (snd (result (FetchPage net c (listing src)) w)). }
  destruct (Regexp.FindAllString _ _) as [|v raws].
  - exists 0. cbn [firstn map].
    now destruct (verbose (flags c)).
  - destruct (visit_requests net c src (v :: raws) w2) as [k [_ Hk]].
    exists k. rewrite Hk, H2. now rewrite <- app_assoc.
Qed.

(** ** From a fragment to the URL of its document *)

Lemma Split_cut (s sep before after : string) :
  sep <> "" ->
  Strings.Cut s sep = Some (before, after) ->
  Strings.Split s sep = before :: Strings.Split after sep.
Proof.
  intros Hsep Hcut. pose proof (Cut_shrinks _ _ _ _ Hsep Hcut) as Hlt.
  unfold Strings.Split at 1.
  destruct (length s) as [|n] eqn:E; [lia|].
  cbn [Strings.Split_loop]. rewrite Hcut.
  now rewrite Split_loop_fuel by (assumption || lia).
Qed.

Lemma Split_whole (s sep : string) :
  Strings.Cut s sep = None -> Strings.Split s sep = [s].
Proof.
  intros H. unfold Strings.Split.
  destruct (length s); cbn [Strings.Split_loop]; [reflexivity|].
  now rewrite H.
Qed.

Lemma Cut_None (s sep : string) :
  Strings.Contains s sep = false -> Strings.Cut s sep = None.
Proof.
  induction s as [|x s IH]; cbn [Strings.Contains Strings.Cut]; intros H;
    apply orb_false_iff in H as [H1 H2]; rewrite H1; [reflexivity|].
  now rewrite (IH H2).
Qed.

Lemma Cut_skip_char (x : ascii) (s sep before after : string) :
  Strings.HasPrefix (String x s) sep = false ->
  Strings.Cut s sep = Some (before, after) ->
  Strings.Cut (String x s) sep = Some (String x before, after).
Proof. intros H1 H2. cbn [Strings.Cut]. now rewrite H1, H2. Qed.

(** Removing a trailer whose leftmost occurrence is at the very end
    removes just that occurrence. *)
Lemma Replace_trailer (body trailer : string) :
  trailer <> "" ->
  Strings.Cut (body ++ trailer) trailer = Some (body, "") ->
  Strings.Replace (body ++ trailer) trailer "" = body.
Proof.
  intros Ht Hcut. unfold Strings.Replace.
  destruct (length (body ++ trailer)) as [|n] eqn:E.
  - rewrite length_append in E. destruct trailer; [congruence|].
    simpl in E. lia.
  - cbn [Strings.Replace_loop]. rewrite Hcut.
    destruct n; cbn [Strings.Replace_loop Strings.Cut String.append];
      [now rewrite append_nil_r|].
    destruct (Strings.HasPrefix "" trailer) eqn:Ep.
    + apply HasPrefix_spec in Ep as [r Ep]. destruct trailer; [congruence|].
      discriminate.
    + now rewrite append_nil_r.
Qed.

Lemma HasPrefix_refl (s : string) : Strings.HasPrefix s s = true.
Proof. apply HasPrefix_spec. exists "". now rewrite append_nil_r. Qed.

Lemma skip_all (s : string) : Strings.skip (length s) s = "".
Proof.
  rewrite <- (append_nil_r s) at 2. apply skip_append.
Qed.

(** The lazy middle stops at the leftmost occurrence of the closing
    text. *)
Lemma lazy_until_leftmost (suffix s m rest : string) :
  Regexp.lazy_until suffix s = Some (m, rest) ->
  exists mid, m = mid ++ suffix
              /\ Strings.Cut (mid ++ suffix) suffix = Some (mid, "").
Proof.
  revert m rest; induction s as [|x s IH]; intros m rest;
    cbn [Regexp.lazy_until].
  - destruct (Strings.HasPrefix "" suffix) eqn:E; [|discriminate].
    intros H; injection H as <- _. exists "". split; [reflexivity|].
    apply HasPrefix_spec in E as [r E]. destruct suffix; [|discriminate].
    reflexivity.
  - destruct (Strings.HasPrefix (String x s) suffix) eqn:E.
    + intros H; injection H as <- _. exists "". split; [reflexivity|].
      cbn [String.append]. destruct suffix as [|y suffix]; [reflexivity|].
      cbn [Strings.Cut]. rewrite HasPrefix_refl.
      now rewrite skip_all.
    + destruct (Ascii.eqb x nl); [discriminate|].
      destruct (Regexp.lazy_until suffix s) as [[m' rest']|] eqn:El;
        [|discriminate].
      intros H; injection H as <- _.
      destruct (IH m' rest' eq_refl) as [mid [-> Hc]].
      exists (String x mid). split; [reflexivity|].
      cbn [String.append]. apply Cut_skip_char; [|exact Hc].
      destruct (Strings.HasPrefix (String x (mid ++ suffix)) suffix) eqn:E';
        [|reflexivity].
      apply lazy_until_Some in El as [-> _].
      apply HasPrefix_spec in E' as [r E'].
      assert (Strings.HasPrefix (String x ((mid ++ suffix) ++ rest')) suffix
              = true) as Habs.
      { apply HasPrefix_spec. exists (r ++ rest').
        change (String x ((mid ++ suffix) ++ rest'))
          with (String x (mid ++ suffix) ++ rest').
        now rewrite E', append_assoc. }
      congruence.
Qed.

(** Every fragment is what the opening of the pattern matched, a middle,
    and the closing text, and the closing text does not occur earlier in
    the middle followed by the closing text. *)
Lemma fragment_parts (src : Source) (body v : string) :
  In v (fragments src body) ->
  exists opening mid s s',
    Regexp.match_open (link_open src) s = Some (opening, s')
    /\ v = opening ++ mid ++ link_close src
    /\ Strings.Cut (mid ++ link_close src) (link_close src) = Some (mid, "").
Proof.
  unfold fragments. intros H. apply find_all_In in H as [s [rest H]].
  unfold Regexp.link_at in H.
  destruct (Regexp.match_open (link_open src) s) as [[opening s']|] eqn:Eo;
    [|discriminate].
  destruct (Regexp.lazy_until (link_close src) s') as [[m r]|] eqn:El;
    [|discriminate].
  injection H as <- _.
  apply lazy_until_leftmost in El as [mid [-> Hc]].
  now exists opening, mid, s, s'.
Qed.

Lemma append_inv_head (p a b : string) : p ++ a = p ++ b -> a = b.
Proof.
  induction p as [|x p IH]; cbn [String.append]; [trivial|].
  intros H. injection H as H. now apply IH.
Qed.

Lemma append_inv_tail (a b s : string) : a ++ s = b ++ s -> a = b.
Proof.
  revert b; induction a as [|x a IH]; intros [|y b] H.
  - reflexivity.
  - apply (f_equal length) in H. cbn [String.append length] in H.
    rewrite length_append in H. lia.
  - apply (f_equal length) in H. cbn [String.append length] in H.
    rewrite length_append in H. lia.
  - cbn [String.append] in H. injection H as -> H. f_equal. now apply IH.
Qed.

(** For a pattern whose opening is literal, the middle of a fragment is
    determined by the fragment. *)
Lemma fragment_middle (src : Source) (p body path : string) :
  link_open src = Regexp.lit p ->
  In (p ++ path ++ link_close src) (fragments src body) ->
  Strings.Cut (path ++ link_close src) (link_close src) = Some (path, "").
Proof.
  intros Hp H. apply fragment_parts in H as [opening [mid [s [s' [Ho [E Hc]]]]]].
  rewrite Hp in Ho. apply match_open_lit_only in Ho. subst opening.
  apply append_inv_head in E. apply append_inv_tail in E. now subst.
Qed.

(** X15.  When [Pastebin] finds the fragment of a path and the path
    followed by the closing text holds no further separator, the document
    URL derived from the fragment is [https://pastebin.com/raw] followed
    by the path. *)
Theorem Pastebin_document_url (body path : string) :
  In (pastebin_fragment path) (fragments pastebin_com body) ->
  Strings.Contains (path ++ DQ ++ ">") ("=" ++ DQ) = false ->
  document_url pastebin_com (pastebin_fragment path)
  = "https://pastebin.com/raw" ++ path.
Proof.
  intros H Hn. apply (fragment_middle pastebin_com _ _ _ eq_refl) in H.
  unfold document_url, rawlink.
  erewrite Split_cut; [|discriminate|reflexivity].
  erewrite Split_cut; [|discriminate|reflexivity].
  erewrite Split_cut; [|discriminate|reflexivity].
  rewrite Split_whole by (apply Cut_None; exact Hn).
  cbn [nth part pastebin_com raw_base trailer].
  change (Strings.skip _ _) with (path ++ (DQ ++ ">")).
  now rewrite Replace_trailer by (discriminate || exact H).
Qed.

Lemma Pastebin_document_url_witness :
  In (pastebin_fragment "/Zx81kQ7p")
     (fragments pastebin_com
        ("<td>" ++ pastebin_fragment "/Zx81kQ7p" ++ "paste</a></td>"))
  /\ Strings.Contains ("/Zx81kQ7p" ++ DQ ++ ">") ("=" ++ DQ) = false
  /\ document_url pastebin_com (pastebin_fragment "/Zx81kQ7p")
     = "https://pastebin.com/raw/Zx81kQ7p".
Proof.
  assert (H1 : In (pastebin_fragment "/Zx81kQ7p")
                  (fragments pastebin_com
                     ("<td>" ++ pastebin_fragment "/Zx81kQ7p"
                      ++ "paste</a></td>")))
    by (vm_compute; tauto).
  assert (H2 : Strings.Contains ("/Zx81kQ7p" ++ DQ ++ ">") ("=" ++ DQ)
               = false) by reflexivity.
  split; [exact H1|]. split; [exact H2|].
  exact (Pastebin_document_url _ "/Zx81kQ7p" H1 H2).
Defined.







(** The dots of the pattern of [Debian] at work: any byte matches, a
    two-byte character counts as one, a newline does not match, and a
    match that starts first wins over one that starts later. *)
Lemma Debian_dots_match_any_character :
  fragments paste_debian_net "<li><a href='//pasteXdebianYnet/1'>"
  = ["<li><a href='//pasteXdebianYnet/1'>"]
  /\ fragments paste_debian_net
       ("<li><a href='//paste"
        ++ String (ascii_of_nat 195) (String (ascii_of_nat 169) "")
        ++ "debian.net/2'>")
     = ["<li><a href='//paste"
        ++ String (ascii_of_nat 195) (String (ascii_of_nat 169) "")
        ++ "debian.net/2'>"]
  /\ fragments paste_debian_net
       ("<li><a href='//paste" ++ NL ++ "debian.net/3'>") = []
  /\ fragments paste_debian_net
       "<li><a href='//pasteXdebianYnet<li><a href='//paste.debian.net/1'>"
     = ["<li><a href='//pasteXdebianYnet<li><a href='//paste.debian.net/1'>"]
  /\ document_url paste_debian_net
       "<li><a href='//pasteXdebianYnet<li><a href='//paste.debian.net/1'>"
     = "http://pasteXdebianYnet".
Proof. repeat split; vm_compute; reflexivity. Qed.



(** X17.  When [Slexy] finds the fragment of a path and the path followed
    by the closing text does not hold [/view] again, the document URL
    derived from the fragment is [http://slexy.org/raw] followed by the
    path. *)
Theorem Slexy_document_url (body path : string) :
  In ("/view" ++ path ++ DQ ++ ">") (fragments slexy_org body) ->
  Strings.Contains (path ++ DQ ++ ">") "/view" = false ->
  document_url slexy_org ("/view" ++ path ++ DQ ++ ">")
  = "http://slexy.org/raw" ++ path.
Proof.
  intros H Hn. apply (fragment_middle slexy_org _ _ _ eq_refl) in H.
  unfold document_url, rawlink.
  erewrite Split_cut; [|discriminate|reflexivity].
  rewrite Split_whole by (apply Cut_None; exact Hn).
  cbn [nth part slexy_org raw_base trailer].
  change (Strings.skip _ _) with (path ++ (DQ ++ ">")).
  now rewrite Replace_trailer by (discriminate || exact H).
Qed.

Lemma Slexy_document_url_witness :
  In ("/view" ++ "/s21Qm3kLxv" ++ DQ ++ ">")
     (fragments slexy_org
        ("<td><a href=" ++ DQ ++ "/view/s21Qm3kLxv" ++ DQ ++ ">View</a></td>"))
  /\ Strings.Contains ("/s21Qm3kLxv" ++ DQ ++ ">") "/view" = false
  /\ document_url slexy_org ("/view" ++ "/s21Qm3kLxv" ++ DQ ++ ">")
     = "http://slexy.org/raw/s21Qm3kLxv".
Proof.
  assert (H1 : In ("/view" ++ "/s21Qm3kLxv" ++ DQ ++ ">")
                  (fragments slexy_org
                     ("<td><a href=" ++ DQ ++ "/view/s21Qm3kLxv" ++ DQ
                      ++ ">View</a></td>")))
    by (vm_compute; tauto).
  assert (H2 : Strings.Contains ("/s21Qm3kLxv" ++ DQ ++ ">") "/view" = false)
    by reflexivity.
  split; [exact H1|]. split; [exact H2|].
  exact (Slexy_document_url _ "/s21Qm3kLxv" H1 H2).
Defined.
